(** * Editr: the cursor/content model of the caret editor

    A shallow embedding of the editor component of [ryohey/editr]
    (the state-transformer variant: [getChildIndex], [inserted],
    [removeCharacterAtIndex], [walkTreeTermination], [terminalElements],
    [cursorRectForIndex], [removeCharacterAtCursor], [moveCursorDelta],
    [fixTextarea], [moveCursorWithClick], [updateContentElement] and the
    event handlers of [class Editor]), followed by the properties of the
    specification that are settled against it.

    Conventions of the embedding.
    - A JavaScript string is the list of its code units; [split("")] and
      [join("")] are kept as the source writes them.
    - Indices ([cursorIndex], child positions) are integers of [Z]; pixel
      coordinates are exact rationals of [Q], which is what the doubles
      of the source compute as long as no operation rounds; the one
      comparison where rounding decides is also given on doubles.
    - [Array.prototype.slice] and [String.prototype.substr] are written out
      with their treatment of negative and oversized arguments.
    - A function that can [throw] returns a [result].
    - [setState(f)] applies the updater [f] to the current state, after
      the handler that issued it has returned.
    - A handler is called the way [render] attaches it: an arrow function
      sees the component, a method passed without its receiver does
      not. *)

From Stdlib Require Import List ZArith QArith Lia Lqa Bool String Ascii.
From Stdlib Require Floats.
Import ListNotations.

Local Open Scope Z_scope.

(** ** JavaScript values *)

Module JS.

(** A string as the sequence of its code units.  The editor never looks
    inside a unit: it counts, slices and concatenates them.  [ascii]
    stands for the type of units, so that the literals of the source can
    be written down. *)
Definition jsstring : Type := list ascii.

(** String literals of the source. *)
Definition lit (s : string) : jsstring := list_ascii_of_string s.

(** [x.length] *)
Definition len {T : Type} (a : list T) : Z := Z.of_nat (List.length a).

(** The relative-index rule shared by [slice] and [substr]: a negative
    argument counts from the end, and the outcome is clamped into
    [[0, size]]. *)
Definition relIndex (size k : Z) : Z :=
  if k <? 0 then Z.max (size + k) 0 else Z.min k size.

(** [a.slice(start, end)] *)
Definition slice {T : Type} (a : list T) (start end_ : Z) : list T :=
  let k := relIndex (len a) start in
  let final := relIndex (len a) end_ in
  let count := Z.max (final - k) 0 in
  firstn (Z.to_nat count) (skipn (Z.to_nat k) a).

(** [a.slice(start)] *)
Definition sliceFrom {T : Type} (a : list T) (start : Z) : list T :=
  slice a start (len a).

(** [s.substr(start, length)] *)
Definition substr (s : jsstring) (start length : Z) : jsstring :=
  let size := len s in
  let intStart := relIndex size start in
  let intLength := Z.min (Z.max length 0) size in
  let intEnd := Z.min (intStart + intLength) size in
  firstn (Z.to_nat (intEnd - intStart)) (skipn (Z.to_nat intStart) s).

(** [s.substr(start)] *)
Definition substrFrom (s : jsstring) (start : Z) : jsstring :=
  substr s start (len s).

(** [s.split("")] : one single-unit string per code unit. *)
Definition split (s : jsstring) : list jsstring :=
  map (fun u => [u]) s.

(** [a.join("")] *)
Definition join (a : list jsstring) : jsstring := List.concat a.

(** [a > b] on numbers. *)
Definition gtb (a b : Q) : bool := negb (Qle_bool a b).

(** [a === b] on numbers. *)
Definition eqb (a b : Q) : bool := Qeq_bool a b.

(** [a[i]] : [undefined] (here [None]) outside the array. *)
Definition get {T : Type} (a : list T) (i : Z) : option T :=
  if i <? 0 then None else nth_error a (Z.to_nat i).

(** What a call can throw: the editor's own [Error] for a cursor index
    with no terminal, which carries the index and the number of
    terminals, and the engine's [TypeError] for a member access on
    [undefined]. *)
Inductive Error : Type :=
| InvalidCursorIndex (index length : Z)
| TypeError.

(** The outcome of a call that may throw. *)
Inductive result (A : Type) : Type :=
| Return (a : A)
| Throw (e : Error).
Arguments Return {A} a.
Arguments Throw {A} e.

End JS.
Import JS.

(** ** Rectangles *)

Record IRect : Type := mkRect {
  left : Q;
  top : Q;
  width : Q;
  height : Q
}.

Definition RectZero : IRect :=
  {| left := 0%Q; top := 0%Q; width := 0%Q; height := 0%Q |}.

Definition rectEqual (rectA rectB : IRect) : bool :=
  JS.eqb (left rectA) (left rectB) &&
  JS.eqb (top rectA) (top rectB) &&
  JS.eqb (width rectA) (width rectB) &&
  JS.eqb (height rectA) (height rectB).

(** ** The rendered tree

    An element of the document as the editor reads it: its identity (two
    references are [===] exactly when they denote the same node), the
    [pointer-events] entry of its inline style, the rectangle that
    [getBoundingClientRect()] reports, and its element children. *)

#[warnings="-register-all"]
Inductive Element : Type :=
  mkElement (nodeId : N) (pointerEvents : string)
            (boundingClientRect : IRect) (children : list Element).

Definition nodeId (e : Element) : N :=
  match e with mkElement i _ _ _ => i end.
Definition pointerEvents (e : Element) : string :=
  match e with mkElement _ p _ _ => p end.
Definition getBoundingClientRect (e : Element) : IRect :=
  match e with mkElement _ _ r _ => r end.
Definition children (e : Element) : list Element :=
  match e with mkElement _ _ _ cs => cs end.

(** Reference equality of two elements. *)
Definition sameElement (a b : Element) : bool := N.eqb (nodeId a) (nodeId b).

(** An [HTMLElement] handed to the editor by an event, with its
    [parentElement] link ([None] is [null]: the node is detached). *)
Record HTMLElement : Type := mkHTMLElement {
  element : Element;
  parentElement : option Element
}.

(** The hidden text-capture surface: only its [value] is read. *)
Record HTMLTextAreaElement : Type := mkTextArea {
  value : jsstring
}.

(** [a.indexOf(x)] on an array of elements: the first position holding the
    same node, [-1] when there is none. *)
Fixpoint indexOfFrom (a : list Element) (x : Element) (i : Z) : Z :=
  match a with
  | [] => -1
  | y :: a' => if sameElement y x then i else indexOfFrom a' x (i + 1)
  end.

Definition indexOf (a : list Element) (x : Element) : Z := indexOfFrom a x 0.

(** ** Helpers of the editor *)

Definition getChildIndex (elem : HTMLElement) (filter : Element -> bool) : Z :=
  match parentElement elem with
  | None => -1
  | Some parent =>
      indexOf (List.filter (fun e => negb (filter e)) (children parent))
              (element elem)
  end.

Definition inserted {T : Type} (array : list T) (elem : T) (toIndex : Z)
  : list T :=
  slice array 0 toIndex ++ [elem] ++ sliceFrom array toIndex.

Definition isCursor (elem : Element) : bool :=
  String.eqb (pointerEvents elem) "none".

Definition removeCharacterAtIndex (str : jsstring) (index : Z) : jsstring :=
  substr str 0 index ++ substrFrom str (index + 1).

(** [walkTreeTermination] visits the terminal elements below [elem] in
    document order; the callback may stop the walk by returning [true].
    The callback's effect on its captured variables is threaded as [acc]. *)
Fixpoint walkTreeTermination {A : Type}
    (elem : Element) (callback : Element -> A -> bool * A) (acc : A)
  : bool * A :=
  match elem with
  | mkElement _ _ _ [] => callback elem acc
  | mkElement _ _ _ cs =>
      (fix loop (ns : list Element) (acc : A) {struct ns} : bool * A :=
         match ns with
         | [] => (false, acc)
         | n :: ns' =>
             let (stop, acc') := walkTreeTermination n callback acc in
             if stop then (true, acc') else loop ns' acc'
         end) cs acc
  end.

Definition terminalElements (rootElement : Element) : list Element :=
  snd (walkTreeTermination rootElement
         (fun elem elements => (false, elements ++ [elem])) []).

(** Induction over an element with the hypothesis available for every
    child. *)
Fixpoint Element_children_ind (P : Element -> Prop)
    (step : forall i p r cs, Forall P cs -> P (mkElement i p r cs))
    (e : Element) : P e :=
  match e with
  | mkElement i p r cs =>
      step i p r cs
        ((fix all (l : list Element) : Forall P l :=
            match l with
            | [] => Forall_nil P
            | c :: l' =>
                Forall_cons c (Element_children_ind P step c) (all l')
            end) cs)
  end.

(** ** The cursor rectangle *)

(** The body of [cursorRectForIndex] once [elems] is bound.  The guard
    [elems === null] of the source is omitted: [terminalElements] always
    returns an array. *)
Definition rectForIndex (index : Z) (elems : list Element) : result IRect :=
  (* the width is not used *)
  let width' := (-1)%Q in
  if len elems =? 0 then
    Return {| left := 0%Q; top := 0%Q; width := width'; height := 20%Q |}
  else if index =? len elems then
    match get elems (len elems - 1) with
    | Some elem =>
        let rect := getBoundingClientRect elem in
        Return {| left := (left rect + width rect)%Q;
                  top := top rect;
                  width := width';
                  height := height rect |}
    | None => Throw TypeError
    end
  else
    match get elems index with
    | None => Throw (InvalidCursorIndex index (len elems))
    | Some elem =>
        let rect := getBoundingClientRect elem in
        Return {| left := left rect;
                  top := top rect;
                  width := width';
                  height := height rect |}
    end.

Definition cursorRectForIndex (index : Z) (inElement : Element)
  : result IRect :=
  let elems := terminalElements inElement in
  rectForIndex index elems.

(** ** The component state *)

Record State : Type := mkState {
  content : jsstring;
  inputText : jsstring;
  cursorIndex : Z;
  cursorRect : IRect;
  contentElement : option Element;
  textareaElement : option HTMLTextAreaElement;
  (* whether a conversion is in progress *)
  composition : bool
}.

(** Object-spread updates [{...state, field: v}]. *)
Definition withContent (v : jsstring) (s : State) : State :=
  mkState v (inputText s) (cursorIndex s) (cursorRect s)
          (contentElement s) (textareaElement s) (composition s).
Definition withInputText (v : jsstring) (s : State) : State :=
  mkState (content s) v (cursorIndex s) (cursorRect s)
          (contentElement s) (textareaElement s) (composition s).
Definition withCursorIndex (v : Z) (s : State) : State :=
  mkState (content s) (inputText s) v (cursorRect s)
          (contentElement s) (textareaElement s) (composition s).
Definition withCursorRect (v : IRect) (s : State) : State :=
  mkState (content s) (inputText s) (cursorIndex s) v
          (contentElement s) (textareaElement s) (composition s).
Definition withContentElement (v : option Element) (s : State) : State :=
  mkState (content s) (inputText s) (cursorIndex s) (cursorRect s)
          v (textareaElement s) (composition s).
Definition withTextareaElement (v : option HTMLTextAreaElement) (s : State)
  : State :=
  mkState (content s) (inputText s) (cursorIndex s) (cursorRect s)
          (contentElement s) v (composition s).
Definition withComposition (v : bool) (s : State) : State :=
  mkState (content s) (inputText s) (cursorIndex s) (cursorRect s)
          (contentElement s) (textareaElement s) v.

(** ** State transformers *)

Definition removeCharacterAtCursor (state : State) : State :=
  let index := cursorIndex state - 1 in
  let content' := removeCharacterAtIndex (content state) index in
  withCursorIndex (Z.max 0 index) (withContent content' state).

Definition moveCursorDelta (delta : Z) (state : State) : State :=
  match contentElement state with
  | None => state
  | Some contentElement' =>
      let elems := terminalElements contentElement' in
      let maxIndex := len elems in
      let index := cursorIndex state + delta in
      withCursorIndex (Z.min maxIndex (Z.max 0 index)) state
  end.

(** Inserts, at the current cursor position, the string that was typed
    into the textarea. *)
Definition fixTextarea (state : State) : State :=
  match textareaElement state with
  | None => state
  | Some textareaElement' =>
      let text := value textareaElement' in
      withContent
        (join (inserted (split (content state)) text (cursorIndex state)))
        (withCursorIndex (cursorIndex state + len text)
           (withInputText (lit "")
              (withComposition false state)))
  end.

(** A mouse event as [moveCursorWithClick] reads it: [target] when the
    handler runs, and [clientX] later, when the updater runs. *)
Record MouseEvent : Type := mkMouseEvent {
  target : HTMLElement;
  clientX : Q
}.

(** The event as the updater finds it.  [moveCursorWithClick(e)] is
    called in the handler and reads [e.target] there; the function it
    returns is run by React after the handler has returned, and reads
    [e.clientX] then.  The source's comment on [target] says that the
    event is released at once, which is why the target is captured: a
    released event has [null] in every property, and [null] enters the
    subtraction as 0. *)
Definition released (e : MouseEvent) : MouseEvent :=
  {| target := target e; clientX := 0 |}.

(** [state.textareaElement.focus()] moves the input focus only; the model
    of the textarea records its [value] alone, so the call leaves no
    trace here.  [e] is the event object with the values its properties
    have when they are read. *)
Definition moveCursorWithClick (e : MouseEvent) (state : State) : State :=
  let target' := target e in
  match textareaElement state with
  | None => state
  | Some _ =>
      let bounds := getBoundingClientRect (element target') in
      let isRight := gtb (clientX e - left bounds) (width bounds / 2) in
      let cursorIndex' :=
        getChildIndex target' isCursor + (if isRight then 1 else 0) in
      withCursorIndex cursorIndex' (withInputText (lit "") state)
  end.

(** Called when the element that actually draws the characters has been
    created: records it and computes the cursor position.  [None] is the
    [null] that tells [setState] to change nothing. *)
Definition updateContentElement (c : option Element) (state : State)
  : result (option State) :=
  match c with
  | None => Return None
  | Some c' =>
      match cursorRectForIndex (cursorIndex state) c' with
      | Throw err => Throw err
      | Return cursorRect' =>
          let rectChanged := negb (rectEqual cursorRect' (cursorRect state)) in
          let elementChanged :=
            match contentElement state with
            | Some old => negb (sameElement c' old)
            | None => true
            end in
          if negb rectChanged && negb elementChanged then Return None
          else
            Return (Some
              ((if elementChanged then withContentElement (Some c')
                else fun s => s)
                 ((if rectChanged then withCursorRect cursorRect'
                   else fun s => s) state)))
      end
  end.

(** ** The component [Editor]

    Every handler of the class issues at most one [setState] call.  The
    call is kept as data, an [Update], so that a run of the component
    records which transformer each event applied; [setState] then gives
    the call its meaning. *)

Module Editor.


(** The argument of a [setState] call: either an object with the fields
    to replace, or one of the state transformers. *)
Inductive Update : Type :=
| ObjInputText (text : jsstring)
| ObjComposition (b : bool)
| ObjTextareaElement (c : HTMLTextAreaElement)
| FnRemoveCharacterAtCursor
| FnMoveCursorDelta (delta : Z)
| FnFixTextarea
| FnMoveCursorWithClick (e : MouseEvent)
| FnUpdateContentElement (c : option Element).

Definition setState (u : Update) (state : State) : result State :=
  match u with
  | ObjInputText text => Return (withInputText text state)
  | ObjComposition b => Return (withComposition b state)
  | ObjTextareaElement c => Return (withTextareaElement (Some c) state)
  | FnRemoveCharacterAtCursor => Return (removeCharacterAtCursor state)
  | FnMoveCursorDelta delta => Return (moveCursorDelta delta state)
  | FnFixTextarea => Return (fixTextarea state)
  | FnMoveCursorWithClick e => Return (moveCursorWithClick e state)
  | FnUpdateContentElement c =>
      match updateContentElement c state with
      | Throw err => Throw err
      | Return None => Return state
      | Return (Some state') => Return state'
      end
  end.

(** [onChangeTextarea(e)], with [e.currentTarget.value] as argument.
    Unlike the other handlers, which are arrow functions held in fields
    of the instance, this one is a method of the prototype: its [this] is
    what the caller binds, [None] standing for [undefined], and reading
    [this.state] of [undefined] is a [TypeError]. *)
Definition onChangeTextarea (currentTargetValue : jsstring)
    (this : option State) : result (option Update) :=
  let text := currentTargetValue in
  match this with
  | None => Throw TypeError
  | Some this' =>
      if composition this' then
        (* nothing is committed during a conversion *)
        Return (Some (ObjInputText text))
      else Return (Some FnFixTextarea)
  end.

(** [onKeyDown(e)], with [e.key] as argument. *)
Definition onKeyDown (key : string) (this : State) : option Update :=
  if String.eqb key "Backspace" then Some FnRemoveCharacterAtCursor
  else if String.eqb key "ArrowLeft" then Some (FnMoveCursorDelta (-1))
  else if String.eqb key "ArrowRight" then Some (FnMoveCursorDelta 1)
  else None.

Definition onCompositionEnd (this : State) : option Update :=
  if composition this then Some FnFixTextarea else None.

Definition onClickContent (e : MouseEvent) (this : State) : option Update :=
  Some (FnMoveCursorWithClick e).

(** The inline handlers of [render]. *)
Definition onCompositionStart (this : State) : option Update :=
  Some (ObjComposition true).

Definition onCompositionUpdate (data : jsstring) (this : State)
  : option Update :=
  None.

(** The [ref] callback of the textarea.  The component renders a single
    textarea, so a non-null [c] differs from [this.state.textareaElement]
    exactly when the latter is still [null]. *)
Definition refTextarea (c : option HTMLTextAreaElement) (this : State)
  : option Update :=
  match c, textareaElement this with
  | Some c', None => Some (ObjTextareaElement c')
  | _, _ => None
  end.

(** The [ref] callback of the content container. *)
Definition refContent (c : option Element) (this : State) : option Update :=
  Some (FnUpdateContentElement c).

(** What reaches the component: the events of the textarea and of the
    content container, and the two [ref] callbacks.  A click carries the
    event object with the values [moveCursorWithClick] reads from it:
    [released e], for the event [e] that was dispatched, once the event
    is released before the updater runs. *)
Inductive Event : Type :=
| KeyDown (key : string)
| Change (text : jsstring)
| CompositionStart
| CompositionUpdate (data : jsstring)
| CompositionEnd
| Click (e : MouseEvent)
| RefTextarea (c : option HTMLTextAreaElement)
| RefContent (c : option Element).

(** The textarea behind [state.textareaElement] is one shared object of
    the document.  Before a [change] event is dispatched the browser has
    stored the edited text in its [value]. *)
Definition typed (text : jsstring) (state : State) : State :=
  match textareaElement state with
  | None => state
  | Some _ => withTextareaElement (Some (mkTextArea text)) state
  end.

(** After a state change [render] runs again; the textarea is controlled
    ([value={this.state.inputText}]), so its [value] is the pending
    input again.  After a change event that set no state React puts the
    value back as well. *)
Definition render (state : State) : State :=
  match textareaElement state with
  | None => state
  | Some _ => withTextareaElement (Some (mkTextArea (inputText state))) state
  end.

Definition deliver (ev : Event) (state : State) : State :=
  match ev with
  | Change text => typed text state
  | _ => state
  end.

(** The handler that [render] has attached for each event, called the
    way React calls it.  [render] passes [onChange={this.onChangeTextarea}]:
    the method itself, without its receiver, so React calls it with
    [this] undefined.  Every other handler is an arrow function and sees
    the component. *)
Definition dispatch (ev : Event) (this : State) : result (option Update) :=
  match ev with
  | KeyDown key => Return (onKeyDown key this)
  | Change text => onChangeTextarea text None
  | CompositionStart => Return (onCompositionStart this)
  | CompositionUpdate data => Return (onCompositionUpdate data this)
  | CompositionEnd => Return (onCompositionEnd this)
  | Click e => Return (onClickContent e this)
  | RefTextarea c => Return (refTextarea c this)
  | RefContent c => Return (refContent c this)
  end.

(** One event: the handler runs on the current state and its [setState]
    call, if any, is applied.  [Throw] is an error thrown on the way, by
    the handler or by the updater. *)
Definition step (ev : Event) (state : State) : result State :=
  let state0 := deliver ev state in
  match dispatch ev state0 with
  | Throw err => Throw err
  | Return None => Return (render state0)
  | Return (Some u) =>
      match setState u state0 with
      | Throw err => Throw err
      | Return state' => Return (render state')
      end
  end.

(** A run over a list of events, with the log of the [setState] calls
    issued, oldest first.  An error thrown by a handler is reported and
    the component lives on with the state it had: handlers run outside
    rendering, no [setState] call was issued, and React puts the value
    of the controlled textarea back.  An error thrown by an updater is
    thrown while React renders, and ends the run. *)
Fixpoint run (evs : list Event) (state : State) (log : list Update)
  : result (State * list Update) :=
  match evs with
  | [] => Return (state, log)
  | ev :: evs' =>
      let state0 := deliver ev state in
      match dispatch ev state0 with
      | Throw _ => run evs' (render state0) log
      | Return None => run evs' (render state0) log
      | Return (Some u) =>
          match setState u state0 with
          | Throw err => Throw err
          | Return state' => run evs' (render state') (log ++ [u])
          end
      end
  end.





End Editor.

(** ** Predicates on states *)

(** The textarea shows the pending input: what [render] establishes. *)
Definition synced (s : State) : Prop :=
  forall ta, textareaElement s = Some ta -> value ta = inputText s.


(** ** Sample documents

    Concrete renderings used to evaluate the definitions: a glyph is a
    childless [span] of width 20 and height 16; the caret overlay is a
    [span] whose style has [pointer-events: none]. *)

Module Sample.

Definition glyph (id : N) (l : Q) : Element :=
  mkElement id ""
    {| left := l; top := 0%Q; width := 20%Q; height := 16%Q |} [].

Definition caret (id : N) (l : Q) : Element :=
  mkElement id "none"
    {| left := l; top := 0%Q; width := 0%Q; height := 16%Q |} [].

(** [<b>] holding two glyphs, the caret overlay and a third glyph. *)
Definition bold : Element :=
  mkElement 2 ""
    {| left := 100%Q; top := 0%Q; width := 60%Q; height := 16%Q |}
    [glyph 10 100%Q; glyph 11 120%Q; caret 12 140%Q; glyph 13 140%Q].

(** The content container [<div><b>...</b></div>]. *)
Definition container : Element :=
  mkElement 1 ""
    {| left := 100%Q; top := 0%Q; width := 60%Q; height := 16%Q |} [bold].


Definition textarea : HTMLTextAreaElement := mkTextArea (lit "").

(** A state of the mounted component showing [container]. *)
Definition mounted (text : jsstring) (index : Z) : State :=
  {| content := text;
     inputText := lit "";
     cursorIndex := index;
     cursorRect := RectZero;
     contentElement := Some container;
     textareaElement := Some textarea;
     composition := false |}.


End Sample.

(** ** A loop with [break]

    [visit callback elems acc] calls [callback] on the elements of
    [elems] in order, threading [acc], and stops after the first call
    that answers [true]: what a [for ... of] loop with an early [return]
    does on an array. *)
Fixpoint visit {A : Type} (callback : Element -> A -> bool * A)
    (elems : list Element) (acc : A) : bool * A :=
  match elems with
  | [] => (false, acc)
  | elem :: elems' =>
      let (stop, acc') := callback elem acc in
      if stop then (true, acc') else visit callback elems' acc'
  end.

(** The [for] loop of [walkTreeTermination] over the children of an
    element, as a function of its own. *)
Section WalkChildren.

Context {A : Type} (callback : Element -> A -> bool * A).

Fixpoint walkChildren (ns : list Element) (acc : A) {struct ns} : bool * A :=
  match ns with
  | [] => (false, acc)
  | n :: ns' =>
      let (stop, acc') := walkTreeTermination n callback acc in
      if stop then (true, acc') else walkChildren ns' acc'
  end.

End WalkChildren.

(** ** What [render] draws in the content container

    [render] returns a tree of React elements.  Of an element the model
    keeps its type, the [pointerEvents] entry of its [style] (empty when
    the style has none), its text child, and its element children. *)

#[warnings="-register-all"]
Inductive ReactNode : Type :=
  ReactElement (type : string) (pointerEvents : string) (text : jsstring)
               (children : list ReactNode).

(** [a === b] on strings. *)
Fixpoint streq (a b : jsstring) : bool :=
  match a, b with
  | [], [] => true
  | x :: a', y :: b' => Ascii.eqb x y && streq a' b'
  | _, _ => false
  end.

(** The line break ["\n"]. *)
Definition newline : jsstring := ["010"%char].

Definition mapContentToComponent (content : jsstring) : ReactNode :=
  if streq content newline then ReactElement "br" "" (lit "") []
  else
    (* style: white-space: pre *)
    ReactElement "span" "" content [].

(** The element that holds the content: a [div] with a [b] around the
    given components. *)
Definition contentContainer (items : list ReactNode) : ReactNode :=
  ReactElement "div" "" (lit "") [ReactElement "b" "" (lit "") items].

(** The element with the [ref] callback [updateContentElement]: in the
    [b], one component per unit of the content, with the [span] of the
    pending input, one inner [span] per unit, inserted at the cursor
    index. *)
Definition renderContent (state : State) : ReactNode :=
  contentContainer
    (inserted
       (map mapContentToComponent (split (content state)))
       (ReactElement "span" "none" (lit "")
          (map (fun t => ReactElement "span" "" t [])
               (split (inputText state))))
       (cursorIndex state)).

(** The document React builds from a tree of React elements: one element
    per React element, with the same children in the same order and the
    [pointerEvents] of its style; a text child gives no element.  The
    identity of each node is fresh ([next] counts the nodes created so
    far), and [layout] stands for what the browser measures for a node. *)
Fixpoint mount (layout : N -> IRect) (node : ReactNode) (next : N)
  : Element * N :=
  match node with
  | ReactElement _ pointerEvents' _ cs =>
      let (elems, next') :=
        (fix mountAll (ns : list ReactNode) (n : N) {struct ns}
           : list Element * N :=
           match ns with
           | [] => ([], n)
           | c :: ns' =>
               let (e, n1) := mount layout c n in
               let (es, n2) := mountAll ns' n1 in
               (e :: es, n2)
           end) cs (next + 1)%N in
      (mkElement next pointerEvents' (layout next) elems, next')
  end.

Section MountList.

Context (layout : N -> IRect).

(** The children of a React element, mounted one after the other. *)
Fixpoint mountList (ns : list ReactNode) (n : N) {struct ns}
  : list Element * N :=
  match ns with
  | [] => ([], n)
  | c :: ns' =>
      let (e, n1) := mount layout c n in
      let (es, n2) := mountList ns' n1 in
      (e :: es, n2)
  end.

End MountList.

(** Induction over a React element with the hypothesis available for
    every child. *)
Fixpoint ReactNode_children_ind (P : ReactNode -> Prop)
    (step : forall t p x cs, Forall P cs -> P (ReactElement t p x cs))
    (node : ReactNode) : P node :=
  match node with
  | ReactElement t p x cs =>
      step t p x cs
        ((fix all (l : list ReactNode) : Forall P l :=
            match l with
            | [] => Forall_nil P
            | c :: l' =>
                Forall_cons c (ReactNode_children_ind P step c) (all l')
            end) cs)
  end.

(** The content container of a state, as the browser shows it. *)
Definition contentDocument (layout : N -> IRect) (state : State) : Element :=
  fst (mount layout (renderContent state) 0%N).

(** A glyph: a childless component without [pointer-events]. *)
Definition isGlyph (c : ReactNode) : Prop :=
  match c with ReactElement _ p _ cs => p = ""%string /\ cs = [] end.

(** ** The class with private fields

    The variant of [class Editor] that keeps [textareaElement],
    [contentElement] and [composition] in private fields of the instance
    and only [content], [inputText] and [cursorIndex] in its React state,
    and computes the cursor rectangle inside [render].  [this] is the
    instance, fields and state together, held in the record [State]
    (whose [cursorRect] this variant does not use). *)

Module FieldsEditor.

Definition getContentTerminalElements (this : State)
  : option (list Element) :=
  match contentElement this with
  | None => None
  | Some contentElement' =>
      Some (List.filter (fun e => negb (isCursor e))
                        (terminalElements contentElement'))
  end.

(** Inserts, at the current cursor position, the string that was typed
    into the textarea. *)
Definition fixTextarea (this : State) : State :=
  match textareaElement this with
  | None => this
  | Some textareaElement' =>
      let text := value textareaElement' in
      withContent
        (join (inserted (split (content this)) text (cursorIndex this)))
        (withCursorIndex (cursorIndex this + len text)
           (withInputText (lit "") this))
  end.

Definition onChangeTextarea (currentTargetValue : jsstring) (this : State)
  : State :=
  let text := currentTargetValue in
  if composition this then
    (* nothing is committed during a conversion *)
    withInputText text this
  else fixTextarea this.

Definition onKeyDown (key : string) (this : State) : State :=
  if String.eqb key "Backspace" then
    let content' :=
      removeCharacterAtIndex (content this) (cursorIndex this - 1) in
    withCursorIndex (Z.max 0 (cursorIndex this - 1))
                    (withContent content' this)
  else if String.eqb key "ArrowLeft" then
    withCursorIndex (Z.max 0 (cursorIndex this - 1)) this
  else if String.eqb key "ArrowRight" then
    let elems := getContentTerminalElements this in
    let maxIndex :=
      match elems with Some elems' => len elems' | None => 0 end in
    withCursorIndex (Z.min maxIndex (cursorIndex this + 1)) this
  else this.

Definition onCompositionEnd (this : State) : State :=
  withComposition false
    (if composition this then fixTextarea this else this).

Definition onCompositionStart (this : State) : State :=
  withComposition true this.

Definition cursorRectForIndex (this : State) (index : Z) : result IRect :=
  match getContentTerminalElements this with
  | None => Return RectZero
  | Some elems => rectForIndex index elems
  end.

(** The [onClick] handler of the container. *)
Definition onClick (e : MouseEvent) (this : State) : State :=
  match textareaElement this with
  | None => this
  | Some _ =>
      let bounds := getBoundingClientRect (element (target e)) in
      let isRight := gtb (clientX e - left bounds) (width bounds / 2) in
      let cursorIndex' :=
        getChildIndex (target e) isCursor + (if isRight then 1 else 0) in
      withCursorIndex cursorIndex' (withInputText (lit "") this)
  end.

(** The element that [render] gives the [ref] of [contentElement]: the
    components of the content with the [span] of the pending input, which
    holds the pending input as its text, inserted at the cursor index. *)
Definition renderContent (this : State) : ReactNode :=
  contentContainer
    (inserted
       (map mapContentToComponent (split (content this)))
       (ReactElement "span" "none" (inputText this) [])
       (cursorIndex this)).

(** The rectangle [render] asks for before it draws anything. *)
Definition renderCursorRect (this : State) : result IRect :=
  cursorRectForIndex this (cursorIndex this).

End FieldsEditor.

(** ** The first draft of the class

    The variant of [class Editor] whose key handler knows Backspace only
    and whose [cursorRectForIndex] places the cursor behind the terminal
    before the index. *)

Module DraftEditor.

Definition onKeyDown (key : string) (this : State) : State :=
  if String.eqb key "Backspace" then
    withCursorIndex (cursorIndex this - 1)
      (withContent
         (removeCharacterAtIndex (content this) (cursorIndex this - 1))
         this)
  else this.

(** An element of the array is never [null]: outside the array the
    access gives [undefined], which the test [elem === null] lets through,
    and the call of [getBoundingClientRect] on it is a [TypeError]. *)
Definition cursorRectForIndex (this : State) (index : Z) : result IRect :=
  match contentElement this with
  | None => Return RectZero
  | Some contentElement' =>
      let elems :=
        List.filter (fun e => negb (isCursor e))
                    (terminalElements contentElement') in
      let width' := 10%Q in
      if index =? 0 then
        match get elems 0 with
        | None => Throw TypeError
        | Some elem =>
            let rect := getBoundingClientRect elem in
            Return {| left := left rect;
                      top := top rect;
                      width := width';
                      height := height rect |}
        end
      else
        match get elems (index - 1) with
        | None => Throw TypeError
        | Some elem =>
            let rect := getBoundingClientRect elem in
            Return {| left := (left rect + width rect)%Q;
                      top := top rect;
                      width := width';
                      height := height rect |}
        end
  end.

(** The rectangle [render] asks for before it draws anything. *)
Definition renderCursorRect (this : State) : result IRect :=
  cursorRectForIndex this (cursorIndex this).

End DraftEditor.

(** ** The half test on doubles

    The coordinates of a rectangle and of a click are JavaScript numbers,
    that is IEEE 754 doubles; the definitions above carry them as exact
    rationals, and the two agree as long as no operation rounds.  The
    subtraction [e.clientX - bounds.left] of [moveCursorWithClick] can
    round.  [isRight] is its comparison as it is computed on doubles, and
    [exactValue] the rational that a finite double stands for. *)

Module Double.

Import Floats.

Definition isRight (clientX left' width' : float) : bool :=
  (width' / 2 <? clientX - left')%float.

Definition exactValue (f : float) : option Q :=
  match Prim2SF f with
  | S754_zero _ => Some 0%Q
  | S754_finite s m e =>
      Some ((if s then -1 else 1) * inject_Z (Zpos m) * Qpower 2 e)%Q
  | _ => None
  end.

(** A click at [x = 27] on a glyph whose bounds have the doubles nearest
    to 10.1 and to 33.8 as [left] and [width]. *)
Definition x27 : float := 27.
Definition left10_1 : float := 0x1.4333333333333p+3.
Definition width33_8 : float := 0x1.0e66666666666p+5.

(** The example of the specification. *)
Definition x105 : float := 105.
Definition x115 : float := 115.
Definition left100 : float := 100.
Definition width20 : float := 20.

End Double.

(** * Properties *)

(** Closes a goal about the outcome of a call once the call has been
    rewritten to its [Return] or [Throw]. *)
Ltac settle_outcome :=
  intros;
  first
    [ lia
    | match goal with
      | H : exists _, _ |- _ => destruct H; discriminate
      end
    | eauto; congruence ].

(** ** The JavaScript primitives on in-range and out-of-range arguments *)

Section Primitives.

Context {T : Type}.
Implicit Types a : list T.

Lemma len_nonneg a : 0 <= len a.
Proof. unfold len; lia. Qed.

Lemma len_app a b : len (a ++ b) = len a + len b.
Proof. unfold len; rewrite length_app; lia. Qed.

Lemma firstn_clamped a (i : Z) :
  firstn (Z.to_nat (Z.min i (len a))) a = firstn (Z.to_nat i) a.
Proof.
  unfold len.
  destruct (Z.le_gt_cases i (Z.of_nat (List.length a))) as [Hle | Hgt].
  - now rewrite Z.min_l.
  - rewrite Z.min_r, Nat2Z.id, firstn_all by lia.
    symmetry; apply firstn_all2; lia.
Qed.

Lemma skipn_clamped a (i : Z) :
  skipn (Z.to_nat (Z.min i (len a))) a = skipn (Z.to_nat i) a.
Proof.
  unfold len.
  destruct (Z.le_gt_cases i (Z.of_nat (List.length a))) as [Hle | Hgt].
  - now rewrite Z.min_l.
  - rewrite Z.min_r, Nat2Z.id, skipn_all by lia.
    symmetry; apply skipn_all2; lia.
Qed.

Lemma firstn_rest a (k : Z) :
  0 <= k ->
  firstn (Z.to_nat (len a - Z.min k (len a)))
         (skipn (Z.to_nat (Z.min k (len a))) a)
  = skipn (Z.to_nat (Z.min k (len a))) a.
Proof.
  intros Hk. apply firstn_all2. rewrite length_skipn. unfold len. lia.
Qed.

(** [a.slice(0, i)] is the prefix of length [i]. *)
Lemma slice_prefix a (i : Z) :
  0 <= i -> slice a 0 i = firstn (Z.to_nat i) a.
Proof.
  intros Hi. unfold slice, relIndex.
  pose proof (len_nonneg a) as Hlen.
  replace (0 <? 0) with false by reflexivity.
  replace (i <? 0) with false by (symmetry; apply Z.ltb_ge; lia).
  rewrite (Z.min_l 0) by lia. cbn [Z.to_nat skipn].
  rewrite Z.sub_0_r, Z.max_l by lia.
  apply firstn_clamped.
Qed.

(** [a.slice(i)] is what follows the prefix of length [i]. *)
Lemma sliceFrom_suffix a (i : Z) :
  0 <= i -> sliceFrom a i = skipn (Z.to_nat i) a.
Proof.
  intros Hi. unfold sliceFrom, slice, relIndex.
  pose proof (len_nonneg a) as Hlen.
  replace (i <? 0) with false by (symmetry; apply Z.ltb_ge; lia).
  replace (len a <? 0) with false by (symmetry; apply Z.ltb_ge; lia).
  rewrite (Z.min_id (len a)), Z.max_l by lia.
  rewrite firstn_rest by lia. apply skipn_clamped.
Qed.

(** A negative [toIndex] counts from the end of the array. *)
Lemma slice_prefix_neg a (i : Z) :
  i < 0 -> slice a 0 i = firstn (Z.to_nat (len a + i)) a.
Proof.
  intros Hi. unfold slice, relIndex.
  pose proof (len_nonneg a) as Hlen.
  replace (0 <? 0) with false by reflexivity.
  replace (i <? 0) with true by (symmetry; apply Z.ltb_lt; lia).
  rewrite (Z.min_l 0) by lia. cbn [Z.to_nat skipn].
  rewrite Z.sub_0_r.
  destruct (Z.le_gt_cases 0 (len a + i)).
  - now rewrite !Z.max_l by lia.
  - rewrite (Z.max_r (len a + i)), Z.max_l by lia.
    now replace (Z.to_nat (len a + i)) with 0%nat by lia.
Qed.

Lemma sliceFrom_suffix_neg a (i : Z) :
  i < 0 -> sliceFrom a i = skipn (Z.to_nat (len a + i)) a.
Proof.
  intros Hi. unfold sliceFrom, slice, relIndex.
  pose proof (len_nonneg a) as Hlen.
  replace (i <? 0) with true by (symmetry; apply Z.ltb_lt; lia).
  replace (len a <? 0) with false by (symmetry; apply Z.ltb_ge; lia).
  rewrite (Z.min_id (len a)).
  replace (Z.to_nat (Z.max (len a + i) 0)) with (Z.to_nat (len a + i))
    by lia.
  apply firstn_all2. rewrite length_skipn. unfold len in *. lia.
Qed.

Lemma slice_map {U : Type} (f : T -> U) a (i j : Z) :
  slice (map f a) i j = map f (slice a i j).
Proof.
  unfold slice, len. rewrite length_map.
  now rewrite <- firstn_map, <- skipn_map.
Qed.

Lemma get_Some_iff a (i : Z) :
  (exists x, get a i = Some x) <-> 0 <= i < len a.
Proof.
  unfold get, len. destruct (Z.ltb_spec i 0) as [Hneg | Hpos].
  - split; [intros [x Hx]; discriminate | lia].
  - split.
    + intros [x Hx].
      assert (Z.to_nat i < List.length a)%nat
        by (apply nth_error_Some; congruence).
      lia.
    + intros Hi.
      destruct (nth_error a (Z.to_nat i)) eqn:E; [eauto |].
      apply nth_error_None in E. lia.
Qed.

Lemma get_None_iff a (i : Z) :
  get a i = None <-> i < 0 \/ len a <= i.
Proof.
  pose proof (get_Some_iff a i) as H.
  destruct (get a i) eqn:E.
  - split; [discriminate |].
    intros Hout. assert (0 <= i < len a) by (apply H; eauto). lia.
  - split; [| reflexivity].
    intros _. destruct (Z.ltb_spec i 0); [lia |].
    destruct (Z.ltb_spec i (len a)); [| lia].
    destruct H as [_ H]. destruct H as [x Hx]; [lia | discriminate].
Qed.

End Primitives.

Lemma join_split (s : jsstring) : join (split s) = s.
Proof.
  unfold join, split. induction s as [| u s IH]; cbn; [reflexivity |].
  now rewrite IH.
Qed.

Lemma join_app (a b : list jsstring) : join (a ++ b) = join a ++ join b.
Proof. unfold join. apply concat_app. Qed.

(** What [fixTextarea] builds: the join of the pieces is the text placed
    between the two slices of the content. *)
Lemma join_inserted_split (s text : jsstring) (i : Z) :
  join (inserted (split s) text i) = slice s 0 i ++ text ++ sliceFrom s i.
Proof.
  unfold inserted, sliceFrom.
  assert (Hlen : len (split s) = len s)
    by (unfold split, len; now rewrite length_map).
  rewrite !join_app, Hlen. unfold split at 1 2.
  rewrite !slice_map. fold (split (slice s 0 i)).
  fold (split (slice s i (len s))). rewrite !join_split.
  unfold join; cbn. now rewrite app_nil_r.
Qed.

(** [removeCharacterAtIndex] for an index that is not negative. *)
Lemma removeCharacterAtIndex_nonneg (str : jsstring) (index : Z) :
  0 <= index ->
  removeCharacterAtIndex str index
  = firstn (Z.to_nat index) str ++ skipn (Z.to_nat (index + 1)) str.
Proof.
  intros Hi. unfold removeCharacterAtIndex, substrFrom, substr, relIndex.
  pose proof (len_nonneg str) as Hlen.
  replace (0 <? 0) with false by reflexivity.
  replace (index + 1 <? 0) with false by (symmetry; apply Z.ltb_ge; lia).
  rewrite (Z.min_l 0 (len str)) by lia. cbn [Z.to_nat skipn Z.add].
  rewrite (Z.max_l index 0) by lia.
  rewrite (Z.min_l (Z.min index (len str)) (len str)) by lia.
  rewrite Z.sub_0_r, firstn_clamped. f_equal.
  rewrite (Z.max_l (len str) 0), (Z.min_id (len str)) by lia.
  rewrite (Z.min_r (_ + len str) (len str)) by lia.
  rewrite firstn_rest by lia. apply skipn_clamped.
Qed.

(** [removeCharacterAtIndex(str, -1)] returns [str]: [substr(0, -1)] is
    empty and [substr(0)] is the whole string. *)
Lemma removeCharacterAtIndex_minus_one (str : jsstring) :
  removeCharacterAtIndex str (-1) = str.
Proof.
  unfold removeCharacterAtIndex, substrFrom, substr, relIndex.
  pose proof (len_nonneg str) as Hlen.
  change (-1 + 1) with 0. change (0 <? 0) with false.
  change (Z.max (-1) 0) with 0. cbv iota.
  rewrite (Z.max_l (len str) 0), !(Z.min_id (len str)) by lia.
  rewrite !(Z.min_l 0 (len str)) by lia.
  rewrite (Z.min_l (0 + 0) (len str)), (Z.min_r (0 + len str) (len str))
    by lia.
  cbn [Z.add Z.sub Z.opp Z.to_nat firstn skipn app].
  rewrite Z.sub_0_r. apply firstn_all2. unfold len. lia.
Qed.

(** Removing the unit that follows a prefix [a]. *)
Lemma removeCharacterAtIndex_middle (a b : jsstring) (u : ascii) :
  removeCharacterAtIndex (a ++ u :: b) (len a) = a ++ b.
Proof.
  rewrite removeCharacterAtIndex_nonneg by apply len_nonneg.
  unfold len. replace (Z.to_nat (Z.of_nat (List.length a) + 1))
    with (S (List.length a)) by lia.
  rewrite Nat2Z.id, firstn_app, skipn_app, firstn_all, Nat.sub_diag.
  rewrite skipn_all2 by lia.
  replace (S (List.length a) - List.length a)%nat with 1%nat by lia.
  cbn. now rewrite app_nil_r.
Qed.

(** A list cut at a position inside it. *)
Lemma cut_at (s : jsstring) (i : Z) :
  0 <= i < len s ->
  exists pre u post, s = pre ++ u :: post /\ len pre = i.
Proof.
  intros Hi. unfold len in *.
  destruct (nth_error s (Z.to_nat i)) as [u |] eqn:E.
  - apply nth_error_split in E. destruct E as (pre & post & Hs & Hpre).
    exists pre, u, post. split; [assumption | unfold len; lia].
  - apply nth_error_None in E. lia.
Qed.

Section ContentModel.

Implicit Types (s : State) (t : jsstring).

Lemma removeCharacterAtCursor_content s :
  content (removeCharacterAtCursor s)
  = removeCharacterAtIndex (content s) (cursorIndex s - 1).
Proof. reflexivity. Qed.

Lemma removeCharacterAtCursor_cursorIndex s :
  cursorIndex (removeCharacterAtCursor s) = Z.max 0 (cursorIndex s - 1).
Proof. reflexivity. Qed.

(** Deleting backwards over a run [t] that ends at the cursor. *)
Lemma deleteBackward_run t :
  forall s pre post,
    content s = pre ++ t ++ post ->
    cursorIndex s = len pre + len t ->
    content (Nat.iter (List.length t) removeCharacterAtCursor s)
      = pre ++ post /\
    cursorIndex (Nat.iter (List.length t) removeCharacterAtCursor s)
      = len pre.
Proof.
  induction t as [| u t IH] using rev_ind; intros s pre post Hc Hi.
  - cbn in *. unfold len in *; cbn in Hi. split; [assumption | lia].
  - rewrite length_app, Nat.add_comm. cbn [List.length Nat.add].
    rewrite Nat.iter_succ_r. rewrite len_app in Hi.
    assert (Hu : len [u] = 1) by reflexivity.
    apply IH.
    + assert (Hc' : content s = (pre ++ t) ++ u :: post)
        by (rewrite Hc, <- !app_assoc; reflexivity).
      rewrite removeCharacterAtCursor_content, Hc', Hi, Hu.
      replace (len pre + (len t + 1) - 1) with (len (pre ++ t))
        by (rewrite len_app; lia).
      rewrite removeCharacterAtIndex_middle. apply eq_sym, app_assoc.
    + rewrite removeCharacterAtCursor_cursorIndex, Hi, Hu.
      pose proof (len_nonneg pre). pose proof (len_nonneg t). lia.
Qed.

(** The state after [fixTextarea] when the textarea is attached. *)
Lemma fixTextarea_attached s ta :
  textareaElement s = Some ta ->
  fixTextarea s
  = withContent
      (slice (content s) 0 (cursorIndex s) ++ value ta
         ++ sliceFrom (content s) (cursorIndex s))
      (withCursorIndex (cursorIndex s + len (value ta))
         (withInputText (lit "") (withComposition false s))).
Proof.
  intros Hta. unfold fixTextarea. rewrite Hta.
  now rewrite join_inserted_split.
Qed.

Lemma fixTextarea_in_range s ta :
  textareaElement s = Some ta ->
  0 <= cursorIndex s ->
  content (fixTextarea s)
    = firstn (Z.to_nat (cursorIndex s)) (content s) ++ value ta
        ++ skipn (Z.to_nat (cursorIndex s)) (content s) /\
  cursorIndex (fixTextarea s) = cursorIndex s + len (value ta) /\
  inputText (fixTextarea s) = lit "" /\
  composition (fixTextarea s) = false.
Proof.
  intros Hta Hi. rewrite (fixTextarea_attached s ta Hta). cbn.
  now rewrite slice_prefix, sliceFrom_suffix by assumption.
Qed.

End ContentModel.

(** The scenario of the specification on the component: from ["Hello"]
    with the cursor at 5, three Backspaces leave ["He"] and the cursor at
    2.  [fixTextarea] on the textarea holding ["y"] then gives ["Hey"] and
    the cursor at 3; the change event that should apply it throws
    instead. *)
Example scenario_hello :
  exists s3 log3,
    Editor.run [Editor.KeyDown "Backspace"; Editor.KeyDown "Backspace";
                Editor.KeyDown "Backspace"]
               (Sample.mounted (lit "Hello") 5) [] = Return (s3, log3) /\
    content s3 = lit "He" /\ cursorIndex s3 = 2 /\
    log3 = [Editor.FnRemoveCharacterAtCursor; Editor.FnRemoveCharacterAtCursor;
            Editor.FnRemoveCharacterAtCursor] /\
    content (fixTextarea (Editor.typed (lit "y") s3)) = lit "Hey" /\
    cursorIndex (fixTextarea (Editor.typed (lit "y") s3)) = 3 /\
    Editor.step (Editor.Change (lit "y")) s3 = Throw TypeError.
Proof. do 2 eexists. repeat split; reflexivity. Qed.

(** C1. Round trip of insertion and backward deletion.  In a state whose
    cursor index lies within the buffer and whose textarea holds the text
    [t], [fixTextarea] splices [t] into the content at the cursor index
    and advances the cursor index by the length of [t]; applying
    [removeCharacterAtCursor] as many times as [t] has units then gives
    back the original content and the original cursor index. *)
Theorem insert_then_deleteBackward_roundtrip (s : State) (t : jsstring) :
  textareaElement s = Some (mkTextArea t) ->
  0 <= cursorIndex s <= len (content s) ->
  let c := Z.to_nat (cursorIndex s) in
  let s1 := fixTextarea s in
  let s2 := Nat.iter (List.length t) removeCharacterAtCursor s1 in
  content s1 = firstn c (content s) ++ t ++ skipn c (content s) /\
  cursorIndex s1 = cursorIndex s + len t /\
  content s2 = content s /\
  cursorIndex s2 = cursorIndex s.
Proof.
  intros Hta [Hlo Hhi] c s1 s2.
  destruct (fixTextarea_in_range s _ Hta Hlo) as (Hc1 & Hi1 & _ & _).
  cbn [value] in Hc1, Hi1. fold c s1 in Hc1, Hi1.
  assert (Hpre : len (firstn c (content s)) = cursorIndex s).
  { unfold len in *. rewrite length_firstn. subst c. lia. }
  destruct (deleteBackward_run t s1 (firstn c (content s))
              (skipn c (content s)) Hc1) as [Hc2 Hi2].
  { rewrite Hpre. exact Hi1. }
  fold s2 in Hc2, Hi2.
  repeat split; try assumption.
  - rewrite Hc2. apply firstn_skipn.
  - now rewrite Hi2.
Qed.

Lemma insert_then_deleteBackward_roundtrip_witness :
  let s := mkState (lit "Hello") (lit "") 2 RectZero None
                   (Some (mkTextArea (lit "xyz"))) false in
  let s1 := fixTextarea s in
  let s2 := Nat.iter 3 removeCharacterAtCursor s1 in
  content s1 = lit "Hexyzllo" /\ cursorIndex s1 = 5 /\
  content s2 = lit "Hello" /\ cursorIndex s2 = 2.
Proof.
  refine (insert_then_deleteBackward_roundtrip
            (mkState (lit "Hello") (lit "") 2 RectZero None
                     (Some (mkTextArea (lit "xyz"))) false)
            (lit "xyz") eq_refl _).
  cbn; lia.
Defined.

(** C2, as the specification states it, fails beyond the end of the
    buffer.  With the content ["abc"] and the cursor index at 4, the index
    that ArrowRight produces at the end of the content, the cursor index
    is positive but [removeCharacterAtCursor] removes no unit: the content
    is still ["abc"], of length 3, and only the cursor index goes down. *)
Lemma deleteBackward_past_end_counterexample :
  let s := mkState (lit "abc") (lit "") 4 RectZero None None false in
  0 < cursorIndex s /\
  content (removeCharacterAtCursor s) = content s /\
  len (content (removeCharacterAtCursor s)) = 3 /\
  len (content s) = 3 /\
  cursorIndex (removeCharacterAtCursor s) = 3.
Proof. cbv zeta. repeat split. Qed.

(** C2. Backward deletion.  With the cursor index at 0,
    [removeCharacterAtCursor] returns the state it was given (the call is
    a pure function and cannot raise).  With the cursor index positive and
    within the buffer, the buffer loses exactly the unit at position
    [cursorIndex - 1] and the cursor index goes down by one.  With the
    cursor index beyond the end of the buffer, the buffer is unchanged
    and the cursor index goes down by one.  For any positive cursor index
    the result is the buffer without position [cursorIndex - 1] and the
    cursor index less one, and nothing else in the state changes. *)
Theorem deleteBackward_contract (s : State) :
  (cursorIndex s = 0 -> removeCharacterAtCursor s = s) /\
  (0 < cursorIndex s <= len (content s) ->
   exists pre u post,
     content s = pre ++ u :: post /\
     len pre = cursorIndex s - 1 /\
     content (removeCharacterAtCursor s) = pre ++ post /\
     len (content (removeCharacterAtCursor s)) = len (content s) - 1) /\
  (len (content s) < cursorIndex s ->
   content (removeCharacterAtCursor s) = content s /\
   cursorIndex (removeCharacterAtCursor s) = cursorIndex s - 1) /\
  (0 < cursorIndex s ->
   content (removeCharacterAtCursor s)
     = firstn (Z.to_nat (cursorIndex s - 1)) (content s)
         ++ skipn (Z.to_nat (cursorIndex s)) (content s) /\
   cursorIndex (removeCharacterAtCursor s) = cursorIndex s - 1 /\
   inputText (removeCharacterAtCursor s) = inputText s /\
   composition (removeCharacterAtCursor s) = composition s /\
   cursorRect (removeCharacterAtCursor s) = cursorRect s /\
   contentElement (removeCharacterAtCursor s) = contentElement s /\
   textareaElement (removeCharacterAtCursor s) = textareaElement s).
Proof.
  assert (Hany : 0 < cursorIndex s ->
    content (removeCharacterAtCursor s)
      = firstn (Z.to_nat (cursorIndex s - 1)) (content s)
          ++ skipn (Z.to_nat (cursorIndex s)) (content s) /\
    cursorIndex (removeCharacterAtCursor s) = cursorIndex s - 1).
  { intros Hpos. rewrite removeCharacterAtCursor_content.
    rewrite removeCharacterAtIndex_nonneg by lia.
    replace (cursorIndex s - 1 + 1) with (cursorIndex s) by lia.
    rewrite removeCharacterAtCursor_cursorIndex. split; [reflexivity | lia]. }
  split; [| split; [| split]].
  - intros H0. destruct s as [c i k r ce ta b]. cbn in H0. subst k.
    unfold removeCharacterAtCursor, withCursorIndex, withContent. cbn.
    now rewrite removeCharacterAtIndex_minus_one.
  - intros [Hlo Hhi].
    destruct (cut_at (content s) (cursorIndex s - 1)) as (pre & u & post & Hs & Hpre);
      [lia |].
    exists pre, u, post.
    rewrite removeCharacterAtCursor_content, Hs at 1.
    rewrite removeCharacterAtCursor_content, <- Hpre, Hs.
    rewrite removeCharacterAtIndex_middle.
    repeat split; try reflexivity.
    rewrite !len_app. unfold len. cbn [List.length]. lia.
  - intros Hbig. pose proof (len_nonneg (content s)) as Hlen.
    destruct Hany as [Hc Hi]; [lia |]. split; [| exact Hi].
    rewrite Hc, firstn_all2, skipn_all2 by (unfold len in *; lia).
    apply app_nil_r.
  - intros Hpos. destruct (Hany Hpos) as [Hc Hi].
    repeat split; try reflexivity; assumption.
Qed.

Lemma deleteBackward_contract_witness :
  removeCharacterAtCursor
    (mkState (lit "Hello") (lit "") 0 RectZero None None false)
  = mkState (lit "Hello") (lit "") 0 RectZero None None false /\
  (exists pre u post,
    lit "Hello" = pre ++ u :: post /\
    len pre = 2 /\
    content (removeCharacterAtCursor
               (mkState (lit "Hello") (lit "") 3 RectZero None None false))
      = pre ++ post /\
    len (content (removeCharacterAtCursor
               (mkState (lit "Hello") (lit "") 3 RectZero None None false)))
      = 4) /\
  content (removeCharacterAtCursor
             (mkState (lit "Hello") (lit "") 6 RectZero None None false))
    = lit "Hello" /\
  cursorIndex (removeCharacterAtCursor
             (mkState (lit "Hello") (lit "") 6 RectZero None None false))
    = 5.
Proof.
  split; [| split].
  - exact (proj1 (deleteBackward_contract
             (mkState (lit "Hello") (lit "") 0 RectZero None None false))
             eq_refl).
  - refine (proj1 (proj2 (deleteBackward_contract
             (mkState (lit "Hello") (lit "") 3 RectZero None None false))) _).
    cbn; lia.
  - refine (proj1 (proj2 (proj2 (deleteBackward_contract
             (mkState (lit "Hello") (lit "") 6 RectZero None None false)))) _).
    cbn; lia.
Defined.


(** ** The tree walk *)


Section TreeWalk.

(** The callback of [terminalElements]. *)
Let push : Element -> list Element -> bool * list Element :=
  fun elem elements => (false, elements ++ [elem]).

(** The walk of [terminalElements] never stops early and only appends,
    at least one element. *)
Lemma walk_push_appends (e : Element) :
  forall acc, exists found,
    found <> [] /\ walkTreeTermination e push acc = (false, acc ++ found).
Proof.
  induction e as [i p r cs IH] using Element_children_ind.
  intros acc. destruct cs as [| c cs].
  - exists [mkElement i p r []]. split; [discriminate | reflexivity].
  - cbn [walkTreeTermination].
    inversion IH as [| c' cs' Hc Hcs]; subst.
    destruct (Hc acc) as (found & Hne & Hwalk). rewrite Hwalk.
    clear Hc Hwalk IH.
    assert (Hloop : forall acc0, exists rest,
      (fix loop (ns : list Element) (acc1 : list Element) {struct ns} :=
         match ns with
         | [] => (false, acc1)
         | n :: ns' =>
             let (stop, acc') := walkTreeTermination n push acc1 in
             if stop then (true, acc') else loop ns' acc'
         end) cs acc0 = (false, acc0 ++ rest)).
    { induction Hcs as [| d ds Hd Hds IHds]; intros acc0.
      - exists []. now rewrite app_nil_r.
      - destruct (Hd acc0) as (fd & _ & Hwd). rewrite Hwd.
        destruct (IHds (acc0 ++ fd)) as (rest & Hrest). rewrite Hrest.
        exists (fd ++ rest). now rewrite app_assoc. }
    destruct (Hloop (acc ++ found)) as (rest & Hrest). rewrite Hrest.
    exists (found ++ rest). split.
    + destruct found; [contradiction | discriminate].
    + now rewrite app_assoc.
Qed.

(** Every element has a terminal below it (itself, when childless). *)
Lemma terminalElements_nonempty (e : Element) :
  1 <= len (terminalElements e).
Proof.
  unfold terminalElements.
  destruct (walk_push_appends e []) as (found & Hne & Hwalk).
  fold push. rewrite Hwalk. cbn [snd app].
  destruct found; [contradiction |]. unfold len. cbn [List.length]. lia.
Qed.

End TreeWalk.

(** ** Moving the cursor *)

Section MoveCursor.

Variables (s : State) (c : Element).
Hypothesis Hcontent : contentElement s = Some c.

(** The number of terminals of the attached content element. *)
Let N : Z := len (terminalElements c).

Lemma moveCursorDelta_cursorIndex (delta : Z) :
  cursorIndex (moveCursorDelta delta s)
  = Z.min N (Z.max 0 (cursorIndex s + delta)).
Proof. unfold moveCursorDelta. now rewrite Hcontent. Qed.



End MoveCursor.




(** ** The cursor rectangle *)

Section RectForIndex.

Implicit Types (elems : list Element) (index : Z).

Lemma rectForIndex_empty index :
  rectForIndex index []
  = Return {| left := 0%Q; top := 0%Q; width := (-1)%Q; height := 20%Q |}.
Proof. reflexivity. Qed.

Lemma rectForIndex_at_end elems last :
  elems <> [] ->
  get elems (len elems - 1) = Some last ->
  rectForIndex (len elems) elems
  = Return {| left := (left (getBoundingClientRect last)
                       + width (getBoundingClientRect last))%Q;
              top := top (getBoundingClientRect last);
              width := (-1)%Q;
              height := height (getBoundingClientRect last) |}.
Proof.
  intros Hne Hlast. unfold rectForIndex.
  destruct (Z.eqb_spec (len elems) 0) as [H0 | _].
  - destruct elems; [contradiction | discriminate].
  - now rewrite Z.eqb_refl, Hlast.
Qed.

Lemma rectForIndex_inside elems index elem :
  get elems index = Some elem ->
  rectForIndex index elems
  = Return {| left := left (getBoundingClientRect elem);
              top := top (getBoundingClientRect elem);
              width := (-1)%Q;
              height := height (getBoundingClientRect elem) |}.
Proof.
  intros Hget. unfold rectForIndex.
  assert (Hin : 0 <= index < len elems)
    by (apply get_Some_iff; eauto).
  destruct (Z.eqb_spec (len elems) 0); [lia |].
  destruct (Z.eqb_spec index (len elems)); [lia |].
  now rewrite Hget.
Qed.

Lemma rectForIndex_outside elems index :
  elems <> [] ->
  index < 0 \/ len elems < index ->
  rectForIndex index elems = Throw (InvalidCursorIndex index (len elems)).
Proof.
  intros Hne Hout. unfold rectForIndex.
  pose proof (len_nonneg elems) as Hlen.
  destruct (Z.eqb_spec (len elems) 0) as [H0 | _].
  - destruct elems; [contradiction | discriminate].
  - destruct (Z.eqb_spec index (len elems)); [lia |].
    assert (Hget : get elems index = None) by (apply get_None_iff; lia).
    now rewrite Hget.
Qed.

Lemma get_last_exists elems :
  elems <> [] -> exists last, get elems (len elems - 1) = Some last.
Proof.
  intros Hne. apply get_Some_iff.
  destruct elems; [contradiction |]. unfold len. cbn [List.length]. lia.
Qed.

End RectForIndex.

Lemma terminalElements_not_nil (e : Element) : terminalElements e <> [].
Proof.
  pose proof (terminalElements_nonempty e) as H.
  intros Heq. rewrite Heq in H. unfold len in H. cbn in H. lia.
Qed.

(** C6, as the specification states it, fails on which list is counted.
    The rendering of the content ["abc"] with the cursor index at 4 has
    three terminals that show content and a fourth, the empty span of the
    pending input, which the caret test excludes; index 4 exceeds the
    three content terminals and [cursorRectForIndex] still returns a
    rectangle.  On an empty list the body of the function returns the
    synthetic rectangle for the index 1, which exceeds the length 0, and
    for the negative index -1. *)
Lemma cursorRectForIndex_content_terminals_counterexample :
  let doc := contentDocument (fun _ => RectZero)
               (mkState (lit "abc") (lit "") 4 RectZero None None false) in
  len (List.filter (fun e => negb (isCursor e)) (terminalElements doc)) = 3 /\
  len (terminalElements doc) = 4 /\
  (exists rect, cursorRectForIndex 4 doc = Return rect) /\
  (exists rect, rectForIndex 1 [] = Return rect) /\
  (exists rect, rectForIndex (-1) [] = Return rect).
Proof.
  cbv zeta. split; [reflexivity |]. split; [reflexivity |].
  split; [| split]; eexists; reflexivity.
Qed.

(** C6. [cursorRectForIndex] raises exactly when the index is negative or
    exceeds the number of terminals of the element it is given, all of
    them, the caret overlay included; that list is never empty, and what
    is raised is the invalid-cursor-index error carrying the index and
    that number.  For every index from 0 to the number of terminals it
    returns a rectangle.  On an empty list the body of the function
    returns the synthetic rectangle whatever the index. *)
Theorem cursorRectForIndex_raises_iff (index : Z) (inElement : Element) :
  let N := len (terminalElements inElement) in
  ((exists err, cursorRectForIndex index inElement = Throw err)
     <-> index < 0 \/ N < index) /\
  ((exists rect, cursorRectForIndex index inElement = Return rect)
     <-> 0 <= index <= N) /\
  (forall err, cursorRectForIndex index inElement = Throw err ->
     err = InvalidCursorIndex index N) /\
  1 <= N /\
  rectForIndex index []
  = Return {| left := 0; top := 0; width := (-1)%Q; height := 20%Q |}.
Proof.
  intros N. unfold cursorRectForIndex. cbv zeta. fold N.
  pose proof (terminalElements_not_nil inElement) as Hne.
  pose proof (terminalElements_nonempty inElement) as Hone. fold N in Hone.
  destruct (Z.ltb_spec index 0) as [Hneg | Hpos];
    [| destruct (Z.ltb_spec N index) as [Hbig | Hsmall]].
  1, 2: rewrite (rectForIndex_outside _ index Hne) by (fold N; lia);
    fold N; repeat split; try lia; settle_outcome.
  destruct (Z.eq_dec index N) as [-> | Hlt].
  - destruct (get_last_exists _ Hne) as [last Hlast].
    unfold N. rewrite (rectForIndex_at_end _ last Hne Hlast). fold N.
    repeat split; try lia; settle_outcome.
  - assert (Hin : exists elem, get (terminalElements inElement) index
                                 = Some elem)
      by (apply get_Some_iff; fold N; lia).
    destruct Hin as [elem Helem].
    rewrite (rectForIndex_inside _ index elem Helem).
    repeat split; try lia; settle_outcome.
Qed.




(** ** Clicks *)

Section IndexOf.

Implicit Types (a : list Element) (x : Element).

Lemma indexOfFrom_shift a x (i : Z) :
  indexOfFrom a x i = -1 \/ i <= indexOfFrom a x i.
Proof.
  revert i. induction a as [| y a IH]; intros i; cbn; [now left |].
  destruct (sameElement y x); [right; lia |].
  destruct (IH (i + 1)); [now left | right; lia].
Qed.

(** In an array of distinct nodes [indexOf] returns the position at which
    the node stands. *)
Lemma indexOfFrom_position a x (p : nat) (i : Z) :
  NoDup (map nodeId a) ->
  nth_error a p = Some x ->
  indexOfFrom a x i = i + Z.of_nat p.
Proof.
  revert p i. induction a as [| y a IH]; intros p i Hnd Hp.
  - destruct p; discriminate.
  - cbn [map] in Hnd. inversion Hnd as [| ? ? Hnotin Hnd']; subst.
    destruct p as [| p]; cbn in Hp.
    + injection Hp as ->. cbn. unfold sameElement. rewrite N.eqb_refl. lia.
    + cbn. destruct (sameElement y x) eqn:Hsame.
      * exfalso. apply Hnotin. unfold sameElement in Hsame.
        apply N.eqb_eq in Hsame. rewrite Hsame.
        apply in_map. eapply nth_error_In; eassumption.
      * rewrite (IH p (i + 1) Hnd' Hp). lia.
Qed.

End IndexOf.

Lemma getChildIndex_detached (elem : HTMLElement) (filter : Element -> bool) :
  parentElement elem = None -> getChildIndex elem filter = -1.
Proof. intros H. unfold getChildIndex. now rewrite H. Qed.

Lemma getChildIndex_position (elem : HTMLElement) (parent : Element)
    (filter : Element -> bool) (p : nat) :
  parentElement elem = Some parent ->
  NoDup (map nodeId
           (List.filter (fun e => negb (filter e)) (children parent))) ->
  nth_error (List.filter (fun e => negb (filter e)) (children parent)) p
    = Some (element elem) ->
  getChildIndex elem filter = Z.of_nat p.
Proof.
  intros Hparent Hnd Hp. unfold getChildIndex, indexOf. rewrite Hparent.
  now rewrite (indexOfFrom_position _ _ p 0 Hnd Hp).
Qed.

Lemma gtb_true (a b : Q) : (b < a)%Q -> gtb a b = true.
Proof.
  intros H. unfold gtb. destruct (Qle_bool a b) eqn:E; [| reflexivity].
  apply Qle_bool_iff in E. exfalso. apply (Qlt_not_le _ _ H E).
Qed.

Lemma gtb_false (a b : Q) : (a <= b)%Q -> gtb a b = false.
Proof.
  intros H. unfold gtb. apply Qle_bool_iff in H. now rewrite H.
Qed.

(** The cursor index a click produces in the mounted component. *)
Lemma moveCursorWithClick_cursorIndex (e : MouseEvent) (s : State)
    (ta : HTMLTextAreaElement) :
  textareaElement s = Some ta ->
  cursorIndex (moveCursorWithClick e s)
  = getChildIndex (target e) isCursor
    + (if gtb (clientX e - left (getBoundingClientRect (element (target e))))
              (width (getBoundingClientRect (element (target e))) / 2)
       then 1 else 0).
Proof. intros Hta. unfold moveCursorWithClick. now rewrite Hta. Qed.

(** A click read through a released event compares [0 - left] with half
    the width.  For a target whose left edge and width are not negative
    the comparison fails, and the cursor index is the position of the
    target whichever half was clicked. *)
Lemma moveCursorWithClick_released (e : MouseEvent) (s : State)
    (ta : HTMLTextAreaElement) :
  textareaElement s = Some ta ->
  (0 <= left (getBoundingClientRect (element (target e))))%Q ->
  (0 <= width (getBoundingClientRect (element (target e))))%Q ->
  cursorIndex (moveCursorWithClick (released e) s)
  = getChildIndex (target e) isCursor.
Proof.
  intros Hta Hleft Hwidth.
  rewrite (moveCursorWithClick_cursorIndex (released e) s ta Hta).
  cbn [released target clientX].
  rewrite gtb_false; [lia |].
  set (l := left _) in *. set (w := width _) in *. clearbody l w.
  apply Qle_trans with 0%Q; [lra |].
  apply Qle_shift_div_l; [reflexivity | lra].
Qed.

(** C7, evaluated on the code.  The example of the specification, a
    glyph with bounds [{left: 100, width: 20}] standing at position 0.
    [moveCursorWithClick] does add one for the right half as long as
    [clientX] can be read: on the event itself a click at [x = 115] gives
    1.  But the updater reads [clientX] after the event has been released:
    the comparison is then [0 - 100 > 10], and the click at [x = 115]
    leaves the cursor index at the position 0 of the glyph, as the click
    at [x = 105] does; so does the step of the component.  The same
    happens on the glyph at position 2.  Apart from that, the halves are
    decided on doubles: the example of the specification comes out as
    stated, but for a click at [x = 27] on bounds whose [left] and
    [width] are the doubles nearest to 10.1 and 33.8 the offset exceeds
    half the width, and the rounded subtraction does not. *)
Theorem click_right_half_reads_released_event :
  let s := Sample.mounted (lit "abc") 0 in
  let first_ := mkHTMLElement (Sample.glyph 10 100%Q) (Some Sample.bold) in
  let third := mkHTMLElement (Sample.glyph 13 140%Q) (Some Sample.bold) in
  getChildIndex first_ isCursor = 0 /\
  getChildIndex third isCursor = 2 /\
  cursorIndex (moveCursorWithClick (mkMouseEvent first_ 115%Q) s) = 1 /\
  cursorIndex (moveCursorWithClick (released (mkMouseEvent first_ 105%Q)) s)
  = 0 /\
  cursorIndex (moveCursorWithClick (released (mkMouseEvent first_ 115%Q)) s)
  = 0 /\
  cursorIndex (moveCursorWithClick (released (mkMouseEvent third 155%Q)) s)
  = 2 /\
  (exists s',
     Editor.step (Editor.Click (released (mkMouseEvent first_ 115%Q))) s
     = Return s' /\
     cursorIndex s' = 0) /\
  Double.isRight Double.x105 Double.left100 Double.width20 = false /\
  Double.isRight Double.x115 Double.left100 Double.width20 = true /\
  Double.isRight Double.x27 Double.left10_1 Double.width33_8 = false /\
  exists x l w,
    Double.exactValue Double.x27 = Some x /\
    Double.exactValue Double.left10_1 = Some l /\
    Double.exactValue Double.width33_8 = Some w /\
    (w / 2 < x - l)%Q.
Proof.
  cbv zeta. do 6 (split; [reflexivity |]).
  split; [eexists; split; reflexivity |].
  do 3 (split; [reflexivity |]).
  do 3 eexists. repeat split.
Qed.

(** C8, as the specification states it, fails on the function.  For a
    node without parent [getChildIndex] answers -1, and in the mounted
    component [moveCursorWithClick] stores it: from a cursor index of 2
    the click leaves the cursor index at -1, on the event as dispatched
    and on the released event alike. *)
Lemma click_on_detached_node_counterexample :
  let s := Sample.mounted (lit "abc") 2 in
  let detached := mkHTMLElement (Sample.glyph 10 100%Q) None in
  let click := mkMouseEvent detached 105%Q in
  parentElement detached = None /\
  getChildIndex detached isCursor = -1 /\
  cursorIndex s = 2 /\
  cursorIndex (moveCursorWithClick click s) = -1 /\
  cursorIndex (moveCursorWithClick (released click) s) = -1.
Proof. repeat split; reflexivity. Qed.

(** C8. A click on a node without parent.  [getChildIndex] answers -1.
    While no textarea is attached [moveCursorWithClick] returns the state
    it was given.  In the mounted component it has no test for the -1:
    the pending input is emptied and the cursor index becomes -1 plus the
    half of the hit test, that is -1 or 0, whatever it was; the content
    and the composition flag are unchanged. *)
Theorem click_on_detached_node_not_ignored (e : MouseEvent) (s : State) :
  parentElement (target e) = None ->
  let bounds := getBoundingClientRect (element (target e)) in
  getChildIndex (target e) isCursor = -1 /\
  (textareaElement s = None -> moveCursorWithClick e s = s) /\
  (textareaElement s <> None ->
   inputText (moveCursorWithClick e s) = lit "" /\
   cursorIndex (moveCursorWithClick e s)
   = (if gtb (clientX e - left bounds) (width bounds / 2) then 0 else -1) /\
   (cursorIndex (moveCursorWithClick e s) = -1 \/
    cursorIndex (moveCursorWithClick e s) = 0) /\
   content (moveCursorWithClick e s) = content s /\
   composition (moveCursorWithClick e s) = composition s).
Proof.
  intros Hparent bounds.
  split; [exact (getChildIndex_detached _ _ Hparent) |].
  split; [intros Hta; unfold moveCursorWithClick; now rewrite Hta |].
  intros Hta. destruct (textareaElement s) as [ta |] eqn:Hta';
    [| contradiction].
  rewrite (moveCursorWithClick_cursorIndex e s ta Hta').
  rewrite (getChildIndex_detached _ _ Hparent). fold bounds.
  unfold moveCursorWithClick. rewrite Hta'. cbn.
  destruct (gtb _ _); repeat split; auto.
Qed.

Lemma click_on_detached_node_not_ignored_witness :
  let s := mkState (lit "abc") (lit "xy") 2 RectZero
                   (Some Sample.container) (Some (mkTextArea (lit "xy")))
                   true in
  let e := mkMouseEvent (mkHTMLElement (Sample.glyph 10 100%Q) None) 105%Q in
  getChildIndex (target e) isCursor = -1 /\
  inputText (moveCursorWithClick e s) = lit "" /\
  cursorIndex (moveCursorWithClick e s) = -1 /\
  content (moveCursorWithClick e s) = lit "abc" /\
  composition (moveCursorWithClick e s) = true.
Proof.
  cbv zeta.
  destruct (click_on_detached_node_not_ignored
    (mkMouseEvent (mkHTMLElement (Sample.glyph 10 100%Q) None) 105%Q)
    (mkState (lit "abc") (lit "xy") 2 RectZero
             (Some Sample.container) (Some (mkTextArea (lit "xy"))) true)
    eq_refl)
    as (Hidx & _ & Hmounted).
  destruct Hmounted as (Hinput & Hcursor & _ & Hcontent & Hcomp);
    [discriminate |].
  split; [exact Hidx |]. split; [exact Hinput |].
  split; [exact Hcursor |]. split; [exact Hcontent | exact Hcomp].
Defined.

(** C10. Frame of the click transition.  [moveCursorWithClick] leaves the
    content, the composition flag, the cursor rectangle and the two
    element references as they were; when the textarea is attached the
    pending input becomes empty, and otherwise the state is returned
    unchanged.  So a click during a conversion discards the pending input
    and the component is still composing afterwards, also as a step of the
    component. *)
Theorem moveCursorWithClick_frame (e : MouseEvent) (s : State) :
  content (moveCursorWithClick e s) = content s /\
  composition (moveCursorWithClick e s) = composition s /\
  cursorRect (moveCursorWithClick e s) = cursorRect s /\
  contentElement (moveCursorWithClick e s) = contentElement s /\
  textareaElement (moveCursorWithClick e s) = textareaElement s /\
  (textareaElement s <> None -> inputText (moveCursorWithClick e s) = lit "") /\
  (textareaElement s = None -> moveCursorWithClick e s = s) /\
  exists s',
    Editor.step (Editor.Click e) s = Return s' /\
    content s' = content s /\
    composition s' = composition s /\
    (textareaElement s <> None -> inputText s' = lit "").
Proof.
  unfold Editor.step, Editor.dispatch, Editor.deliver, Editor.onClickContent,
    Editor.setState, Editor.render, moveCursorWithClick.
  destruct (textareaElement s) as [ta |] eqn:Hta; cbn; rewrite ?Hta; cbn.
  - repeat split; try reflexivity; try discriminate.
    eexists. repeat split.
  - repeat split; try reflexivity; try contradiction.
    eexists. repeat split; try reflexivity; contradiction.
Qed.

Lemma moveCursorWithClick_frame_witness :
  let s := mkState (lit "abc") (lit "xy") 1 RectZero
                   (Some Sample.container) (Some (mkTextArea (lit "xy")))
                   true in
  let e := mkMouseEvent
             (mkHTMLElement (Sample.glyph 13 140%Q) (Some Sample.bold))
             155%Q in
  inputText (moveCursorWithClick e s) = lit "" /\
  composition (moveCursorWithClick e s) = true /\
  content (moveCursorWithClick e s) = lit "abc".
Proof.
  cbv zeta.
  pose proof (moveCursorWithClick_frame
    (mkMouseEvent (mkHTMLElement (Sample.glyph 13 140%Q) (Some Sample.bold))
                  155%Q)
    (mkState (lit "abc") (lit "xy") 1 RectZero
             (Some Sample.container) (Some (mkTextArea (lit "xy"))) true))
    as (Hcontent & Hcomp & _ & _ & _ & Hinput & _).
  split; [apply Hinput; discriminate | split; [exact Hcomp | exact Hcontent]].
Defined.

(** ** The composition gate *)

Section CompositionGate.

Import Editor.

Implicit Types (s : State) (ev : Event) (evs : list Event).


Lemma render_synced s : synced (render s).
Proof.
  unfold synced, render. intros ta.
  destruct (textareaElement s) eqn:Hta; cbn; rewrite ?Hta; intros H;
    [now injection H as <- | discriminate].
Qed.

Lemma render_fields s :
  content (render s) = content s /\
  inputText (render s) = inputText s /\
  cursorIndex (render s) = cursorIndex s /\
  composition (render s) = composition s /\
  (textareaElement (render s) = None <-> textareaElement s = None).
Proof.
  unfold render. destruct (textareaElement s) eqn:Hta; cbn; rewrite ?Hta;
    repeat split; try reflexivity; try discriminate.
Qed.

(** What each event does to the state, with the handler and its
    [setState] call unfolded. *)
Lemma step_outcome ev s :
  step ev s
  = match ev with
    | KeyDown key =>
        Return (render
          (if String.eqb key "Backspace" then removeCharacterAtCursor s
           else if String.eqb key "ArrowLeft" then moveCursorDelta (-1) s
           else if String.eqb key "ArrowRight" then moveCursorDelta 1 s
           else s))
    | Change text => Throw TypeError
    | CompositionStart => Return (render (withComposition true s))
    | CompositionUpdate _ => Return (render s)
    | CompositionEnd =>
        Return (render (if composition s then fixTextarea s else s))
    | Click e => Return (render (moveCursorWithClick e s))
    | RefTextarea c =>
        Return (render
          (match c, textareaElement s with
           | Some c', None => withTextareaElement (Some c') s
           | _, _ => s
           end))
    | RefContent c =>
        match updateContentElement c s with
        | Throw err => Throw err
        | Return None => Return (render s)
        | Return (Some s') => Return (render s')
        end
    end.
Proof.
  destruct ev; unfold step; cbn [dispatch deliver].
  - unfold onKeyDown.
    destruct (String.eqb key "Backspace"); [reflexivity |].
    destruct (String.eqb key "ArrowLeft"); [reflexivity |].
    destruct (String.eqb key "ArrowRight"); reflexivity.
  - reflexivity.
  - reflexivity.
  - reflexivity.
  - unfold onCompositionEnd. destruct (composition s); reflexivity.
  - reflexivity.
  - unfold refTextarea.
    destruct c as [c' |]; [| reflexivity].
    destruct (textareaElement s); reflexivity.
  - cbn. destruct (updateContentElement c s) as [[s' |] |]; reflexivity.
Qed.

(** Only the handler of the change event throws, and it always does. *)
Lemma dispatch_outcome ev s :
  dispatch ev s
  = match ev with
    | Change _ => Throw TypeError
    | KeyDown key => Return (onKeyDown key s)
    | CompositionStart => Return (Some (ObjComposition true))
    | CompositionUpdate _ => Return None
    | CompositionEnd => Return (onCompositionEnd s)
    | Click e => Return (Some (FnMoveCursorWithClick e))
    | RefTextarea c => Return (refTextarea c s)
    | RefContent c => Return (Some (FnUpdateContentElement c))
    end.
Proof. destruct ev; reflexivity. Qed.

Lemma step_synced ev s s' : step ev s = Return s' -> synced s'.
Proof.
  unfold step.
  destruct (dispatch ev (deliver ev s)) as [[u |] | err]; [| | discriminate].
  - destruct (setState u (deliver ev s)); intros H; [| discriminate].
    injection H as <-. apply render_synced.
  - intros H. injection H as <-. apply render_synced.
Qed.

Lemma step_CompositionStart s :
  step CompositionStart s = Return (render (withComposition true s)).
Proof. reflexivity. Qed.

Lemma step_Change s text : step (Change text) s = Throw TypeError.
Proof. reflexivity. Qed.

Lemma step_CompositionEnd_composing s :
  composition s = true ->
  step CompositionEnd s = Return (render (fixTextarea s)).
Proof.
  intros Hc. unfold step, dispatch, deliver, onCompositionEnd.
  now rewrite Hc.
Qed.

Lemma step_CompositionEnd_idle s :
  composition s = false -> step CompositionEnd s = Return (render s).
Proof.
  intros Hc. unfold step, dispatch, deliver, onCompositionEnd.
  now rewrite Hc.
Qed.

(** The two fields the composition gate is about, after each state
    transformer. *)
Lemma removeCharacterAtCursor_gate s :
  inputText (removeCharacterAtCursor s) = inputText s /\
  composition (removeCharacterAtCursor s) = composition s /\
  textareaElement (removeCharacterAtCursor s) = textareaElement s.
Proof. repeat split. Qed.

Lemma moveCursorDelta_gate delta s :
  inputText (moveCursorDelta delta s) = inputText s /\
  composition (moveCursorDelta delta s) = composition s /\
  textareaElement (moveCursorDelta delta s) = textareaElement s.
Proof.
  unfold moveCursorDelta. destruct (contentElement s); repeat split.
Qed.


Lemma moveCursorWithClick_gate e s :
  (inputText (moveCursorWithClick e s) = inputText s \/
   inputText (moveCursorWithClick e s) = lit "") /\
  composition (moveCursorWithClick e s) = composition s /\
  textareaElement (moveCursorWithClick e s) = textareaElement s.
Proof.
  unfold moveCursorWithClick. destruct (textareaElement s) eqn:Hta; cbn;
    rewrite ?Hta; repeat split; auto.
Qed.

Lemma moveCursorWithClick_content e s :
  content (moveCursorWithClick e s) = content s.
Proof.
  unfold moveCursorWithClick. now destruct (textareaElement s).
Qed.

Lemma updateContentElement_gate c s s' :
  updateContentElement c s = Return (Some s') ->
  inputText s' = inputText s /\
  composition s' = composition s /\
  textareaElement s' = textareaElement s.
Proof.
  unfold updateContentElement. destruct c as [c' |]; [| discriminate].
  destruct (cursorRectForIndex (cursorIndex s) c'); [| discriminate].
  destruct (negb (negb (rectEqual a (cursorRect s))) && _);
    [discriminate |].
  intros H. injection H as <-.
  destruct (match contentElement s with
            | Some old => negb (sameElement c' old)
            | None => true
            end);
    destruct (negb (rectEqual a (cursorRect s))); repeat split.
Qed.








End CompositionGate.

Section Sessions.

Import Editor.

Implicit Types (s : State) (ev : Event) (evs : list Event).




End Sessions.

(** C4, evaluated on the code.  [render] hands [this.onChangeTextarea] to
    the textarea without its receiver, so the handler of every change
    event throws a [TypeError] at [this.state], before any [setState]
    call.  In the mounted component showing ["Hello"] with the cursor at
    2, the events composition-start, input change to ["a"], input change
    to ["ab"], composition-end therefore issue two [setState] calls, not
    four; no pending input is ever stored, the textarea shows the empty
    pending input when the composition ends, and the commit inserts
    nothing: the content is still ["Hello"] and the cursor index still
    2. *)
Theorem composition_roundtrip_change_throws :
  (forall text s, Editor.step (Editor.Change text) s = Throw TypeError) /\
  (forall text s,
     Editor.dispatch (Editor.Change text)
                     (Editor.deliver (Editor.Change text) s)
     = Throw TypeError) /\
  exists s',
    Editor.run
      [Editor.CompositionStart; Editor.Change (lit "a");
       Editor.Change (lit "ab"); Editor.CompositionEnd]
      (Sample.mounted (lit "Hello") 2) []
    = Return (s', [Editor.ObjComposition true; Editor.FnFixTextarea]) /\
    content s' = lit "Hello" /\
    inputText s' = lit "" /\
    cursorIndex s' = 2 /\
    composition s' = false.
Proof.
  split; [reflexivity |]. split; [reflexivity |].
  eexists. repeat split; reflexivity.
Qed.




(** * Further properties of the code *)

(** ** The tree walk as a loop over the terminals *)

Section Walk.

Context {A : Type} (callback : Element -> A -> bool * A).

Lemma visit_app (l1 l2 : list Element) (acc : A) :
  visit callback (l1 ++ l2) acc
  = let (stop, acc') := visit callback l1 acc in
    if stop then (true, acc') else visit callback l2 acc'.
Proof.
  revert acc. induction l1 as [| x l1 IH]; intros acc; cbn; [reflexivity |].
  destruct (callback x acc) as [[|] acc']; [reflexivity | apply IH].
Qed.

Lemma visit_single (x : Element) (acc : A) :
  visit callback [x] acc = callback x acc.
Proof. cbn. now destruct (callback x acc) as [[|] acc']. Qed.

End Walk.

Lemma walkTreeTermination_node {A : Type}
    (callback : Element -> A -> bool * A) i p r c cs (acc : A) :
  walkTreeTermination (mkElement i p r (c :: cs)) callback acc
  = walkChildren callback (c :: cs) acc.
Proof. reflexivity. Qed.

Section Collect.

(** The callback of [terminalElements]. *)
Let push : Element -> list Element -> bool * list Element :=
  fun elem elements => (false, elements ++ [elem]).

Lemma walkChildren_push (l : list Element) :
  Forall (fun x => forall acc,
            walkTreeTermination x push acc
            = (false, acc ++ terminalElements x)) l ->
  forall acc,
    walkChildren push l acc = (false, acc ++ flat_map terminalElements l).
Proof.
  induction 1 as [| d ds Hd _ IHds]; intros acc; cbn.
  - now rewrite app_nil_r.
  - rewrite Hd, IHds. now rewrite app_assoc.
Qed.

Lemma walkTreeTermination_push (e : Element) :
  forall acc,
    walkTreeTermination e push acc = (false, acc ++ terminalElements e).
Proof.
  induction e as [i p r cs IH] using Element_children_ind.
  intros acc. destruct cs as [| c cs]; [reflexivity |].
  unfold terminalElements. fold push.
  rewrite !walkTreeTermination_node, !(walkChildren_push _ IH).
  reflexivity.
Qed.

(** The terminals of an element: itself when it has no children, and
    otherwise those of its children, in order. *)
Lemma terminalElements_equation (e : Element) :
  terminalElements e
  = match children e with
    | [] => [e]
    | cs => flat_map terminalElements cs
    end.
Proof.
  destruct e as [i p r [| c cs]]; [reflexivity |].
  unfold terminalElements at 1. fold push.
  rewrite walkTreeTermination_node, walkChildren_push; [reflexivity |].
  apply Forall_forall. intros x _. apply walkTreeTermination_push.
Qed.

End Collect.

(** X1. [terminalElements] lists the childless elements below the root in
    document order: a childless element is its own single terminal, an
    element with children contributes the terminals of its children from
    first to last and is not itself listed; every element listed is
    childless. *)
Theorem terminalElements_document_order (e : Element) :
  terminalElements e
  = match children e with
    | [] => [e]
    | cs => flat_map terminalElements cs
    end /\
  Forall (fun t => children t = []) (terminalElements e).
Proof.
  split; [apply terminalElements_equation |].
  induction e as [i p r cs IH] using Element_children_ind.
  rewrite terminalElements_equation. cbn [children].
  destruct cs as [| c cs]; [repeat constructor |].
  apply Forall_flat_map. exact IH.
Qed.

(** X2. [walkTreeTermination] is a loop with [break] over the terminals:
    for any callback, it calls the callback on the terminals below the
    element in document order, stops after the first call that returns
    [true], and returns [true] exactly when a call did. *)
Theorem walkTreeTermination_visits_terminals {A : Type}
    (callback : Element -> A -> bool * A) (e : Element) (acc : A) :
  walkTreeTermination e callback acc
  = visit callback (terminalElements e) acc.
Proof.
  revert acc. induction e as [i p r cs IH] using Element_children_ind.
  intros acc. rewrite terminalElements_equation. cbn [children].
  destruct cs as [| c cs]; [now rewrite visit_single |].
  rewrite walkTreeTermination_node.
  generalize (c :: cs) IH. clear. intros l IH. revert acc.
  induction IH as [| d ds Hd _ IHds]; intros acc; [reflexivity |].
  cbn [flat_map walkChildren]. rewrite visit_app, Hd.
  destruct (visit callback (terminalElements d) acc) as [[|] acc'];
    [reflexivity | apply IHds].
Qed.

(** ** Insertion and removal at any index *)

Section AnyIndex.

Context {T : Type}.
Implicit Types (a : list T) (i : Z).

Lemma relIndex_range (size k : Z) :
  0 <= size -> 0 <= relIndex size k <= size.
Proof. intros Hs. unfold relIndex. destruct (Z.ltb_spec k 0); lia. Qed.

Lemma slice_prefix_any a i :
  slice a 0 i = firstn (Z.to_nat (relIndex (len a) i)) a.
Proof.
  unfold relIndex. destruct (Z.ltb_spec i 0) as [Hneg | Hpos].
  - rewrite slice_prefix_neg by assumption. f_equal. lia.
  - rewrite slice_prefix by assumption. symmetry. apply firstn_clamped.
Qed.

Lemma sliceFrom_suffix_any a i :
  sliceFrom a i = skipn (Z.to_nat (relIndex (len a) i)) a.
Proof.
  unfold relIndex. destruct (Z.ltb_spec i 0) as [Hneg | Hpos].
  - rewrite sliceFrom_suffix_neg by assumption. f_equal. lia.
  - rewrite sliceFrom_suffix by assumption. symmetry. apply skipn_clamped.
Qed.

(** X3. [inserted] at any integer index, in range or not: the two slices
    it takes always split the array, so the result is the array with the
    one new element put at the position the index resolves to (counted
    from the end when negative, clamped into the array), it has exactly
    one element more, and taking the new element out gives the array
    back; for an index within the array the new element stands at that
    index. *)
Theorem inserted_any_index a (x : T) i :
  let k := Z.to_nat (relIndex (len a) i) in
  slice a 0 i ++ sliceFrom a i = a /\
  inserted a x i = firstn k a ++ x :: skipn k a /\
  len (inserted a x i) = len a + 1 /\
  get (inserted a x i) (relIndex (len a) i) = Some x /\
  firstn k (inserted a x i) ++ skipn (S k) (inserted a x i) = a.
Proof.
  intros k. pose proof (len_nonneg a) as Hlen.
  pose proof (relIndex_range (len a) i Hlen) as Hk.
  assert (Hins : inserted a x i = firstn k a ++ x :: skipn k a).
  { unfold inserted. now rewrite slice_prefix_any, sliceFrom_suffix_any. }
  assert (Hfirst : List.length (firstn k a) = k).
  { rewrite length_firstn. unfold len in *. subst k. lia. }
  split; [rewrite slice_prefix_any, sliceFrom_suffix_any; apply firstn_skipn |].
  split; [exact Hins |]. rewrite Hins. split; [| split].
  - rewrite len_app. unfold len. cbn [List.length].
    rewrite Hfirst, length_skipn. unfold len in *. subst k. lia.
  - unfold get. destruct (Z.ltb_spec (relIndex (len a) i) 0); [lia |].
    fold k. rewrite nth_error_app2 by lia.
    rewrite Hfirst, Nat.sub_diag. reflexivity.
  - rewrite firstn_app, Hfirst, Nat.sub_diag, firstn_all2 by lia.
    cbn [firstn]. rewrite app_nil_r.
    rewrite skipn_app, Hfirst, skipn_all2 by lia.
    replace (S k - k)%nat with 1%nat by lia. cbn [skipn app].
    apply firstn_skipn.
Qed.

End AnyIndex.

Lemma removeCharacterAtIndex_below_minus_one (str : jsstring) (index : Z) :
  index < -1 ->
  removeCharacterAtIndex str index
  = skipn (Z.to_nat (len str + (index + 1))) str.
Proof.
  intros Hi. unfold removeCharacterAtIndex, substrFrom, substr, relIndex.
  pose proof (len_nonneg str) as Hlen.
  change (0 <? 0) with false. cbv iota.
  replace (index + 1 <? 0) with true by (symmetry; apply Z.ltb_lt; lia).
  rewrite (Z.max_r index 0) by lia.
  rewrite !(Z.min_l 0 (len str)) by lia.
  rewrite (Z.min_l (0 + 0) (len str)) by lia.
  cbn [Z.add Z.sub Z.opp Z.to_nat firstn skipn app].
  rewrite (Z.max_l (len str) 0), (Z.min_id (len str)) by lia.
  rewrite (Z.min_r (_ + len str) (len str)) by lia.
  replace (Z.to_nat (Z.max (len str + (index + 1)) 0))
    with (Z.to_nat (len str + (index + 1))) by lia.
  apply firstn_all2. rewrite length_skipn. unfold len in *. lia.
Qed.

(** X4. [removeCharacterAtIndex] on every integer index.  Inside the
    string it removes the one unit at the index.  At the index -1 and at
    any index from the length on it returns the string as it is.  Below
    -1 it does not leave the string alone: [substr(0, index)] is empty and
    [substr(index + 1)] counts from the end, so only the last
    [-(index + 1)] units are kept (the whole string when it is that
    short).  The result is never longer than the string. *)
Theorem removeCharacterAtIndex_every_index (str : jsstring) (index : Z) :
  (0 <= index < len str ->
   removeCharacterAtIndex str index
   = firstn (Z.to_nat index) str ++ skipn (S (Z.to_nat index)) str /\
   len (removeCharacterAtIndex str index) = len str - 1) /\
  (index = -1 \/ len str <= index ->
   removeCharacterAtIndex str index = str) /\
  (index < -1 ->
   removeCharacterAtIndex str index
   = skipn (Z.to_nat (len str + (index + 1))) str /\
   len (removeCharacterAtIndex str index)
   = Z.min (len str) (- (index + 1))) /\
  len (removeCharacterAtIndex str index) <= len str.
Proof.
  pose proof (len_nonneg str) as Hlen.
  assert (Hin : 0 <= index < len str ->
    removeCharacterAtIndex str index
    = firstn (Z.to_nat index) str ++ skipn (S (Z.to_nat index)) str /\
    len (removeCharacterAtIndex str index) = len str - 1).
  { intros Hi. rewrite removeCharacterAtIndex_nonneg by lia.
    replace (Z.to_nat (index + 1)) with (S (Z.to_nat index)) by lia.
    split; [reflexivity |].
    rewrite len_app. unfold len in *.
    rewrite length_firstn, length_skipn. lia. }
  assert (Hsame : index = -1 \/ len str <= index ->
    removeCharacterAtIndex str index = str).
  { intros [-> | Hbig]; [apply removeCharacterAtIndex_minus_one |].
    rewrite removeCharacterAtIndex_nonneg by lia.
    rewrite firstn_all2, skipn_all2 by (unfold len in *; lia).
    apply app_nil_r. }
  assert (Hneg : index < -1 ->
    removeCharacterAtIndex str index
    = skipn (Z.to_nat (len str + (index + 1))) str /\
    len (removeCharacterAtIndex str index)
    = Z.min (len str) (- (index + 1))).
  { intros Hi. rewrite removeCharacterAtIndex_below_minus_one by assumption.
    split; [reflexivity |]. unfold len in *. rewrite length_skipn. lia. }
  repeat split; try (apply Hin; lia); try (apply Hneg; lia);
    try (intros; apply Hsame; assumption).
  destruct (Z.ltb_spec index (-1)) as [H1 | H1].
  - destruct (Hneg H1) as [_ ->]. lia.
  - destruct (Z.eq_dec index (-1)) as [-> | H2].
    + rewrite Hsame by (now left). lia.
    + destruct (Z.ltb_spec index (len str)) as [H3 | H3].
      * destruct Hin as [_ ->]; lia.
      * rewrite Hsame by (now right). lia.
Qed.

Lemma removeCharacterAtIndex_every_index_witness :
  removeCharacterAtIndex (lit "Hello") 1 = lit "Hllo" /\
  removeCharacterAtIndex (lit "Hello") 5 = lit "Hello" /\
  removeCharacterAtIndex (lit "Hello") (-3) = lit "lo".
Proof.
  destruct (removeCharacterAtIndex_every_index (lit "Hello") 1)
    as (Hin & _).
  destruct (removeCharacterAtIndex_every_index (lit "Hello") 5)
    as (_ & Hsame & _).
  destruct (removeCharacterAtIndex_every_index (lit "Hello") (-3))
    as (_ & _ & Hneg & _).
  split; [| split].
  - apply Hin. cbn. lia.
  - apply Hsame. right. cbn. lia.
  - apply Hneg. lia.
Defined.

(** ** The content transformers outside the buffer *)

(** X6. [fixTextarea] at any cursor index, with the textarea attached.
    The text of the textarea is put into the content at the position the
    cursor index resolves to under the rules of [slice]: at the end when
    the cursor index exceeds the length, and counted back from the end
    when it is negative.  No unit of the content is lost: the length grows
    by the length of the text.  The cursor index always grows by the
    length of the text, so it points just behind the inserted text only
    when it was within the content.  Committing an empty text changes
    neither the content nor the cursor index. *)
Theorem fixTextarea_any_cursor (s : State) (ta : HTMLTextAreaElement) :
  textareaElement s = Some ta ->
  let k := Z.to_nat (relIndex (len (content s)) (cursorIndex s)) in
  content (fixTextarea s)
    = firstn k (content s) ++ value ta ++ skipn k (content s) /\
  len (content (fixTextarea s)) = len (content s) + len (value ta) /\
  cursorIndex (fixTextarea s) = cursorIndex s + len (value ta) /\
  (len (content s) < cursorIndex s ->
   content (fixTextarea s) = content s ++ value ta) /\
  (value ta = lit "" ->
   content (fixTextarea s) = content s /\
   cursorIndex (fixTextarea s) = cursorIndex s).
Proof.
  intros Hta k. rewrite (fixTextarea_attached s ta Hta).
  cbn [content cursorIndex withContent withCursorIndex withInputText
       withComposition].
  rewrite slice_prefix_any, sliceFrom_suffix_any. fold k.
  pose proof (len_nonneg (content s)) as Hlen.
  split; [reflexivity |]. split; [| split; [reflexivity | split]].
  - rewrite !len_app. rewrite <- (firstn_skipn k (content s)) at 3.
    rewrite len_app. lia.
  - intros Hbig. subst k. unfold relIndex.
    destruct (Z.ltb_spec (cursorIndex s) 0); [lia |].
    rewrite Z.min_r by lia. unfold len. rewrite Nat2Z.id.
    rewrite firstn_all, skipn_all. now rewrite app_nil_r.
  - intros Hempty. rewrite Hempty. cbn [lit list_ascii_of_string app].
    split; [apply firstn_skipn | unfold len; cbn; lia].
Qed.

Lemma fixTextarea_any_cursor_witness :
  content (fixTextarea
             (mkState (lit "Hello") (lit "") 9 RectZero None
                      (Some (mkTextArea (lit "xy"))) false))
  = lit "Helloxy" /\
  cursorIndex (fixTextarea
             (mkState (lit "Hello") (lit "") 9 RectZero None
                      (Some (mkTextArea (lit "xy"))) false))
  = 11.
Proof.
  destruct (fixTextarea_any_cursor
              (mkState (lit "Hello") (lit "") 9 RectZero None
                       (Some (mkTextArea (lit "xy"))) false)
              (mkTextArea (lit "xy")) eq_refl)
    as (_ & _ & Hindex & Hbig & _).
  split; [apply Hbig; cbn; lia | exact Hindex].
Defined.

(** ** One step of the component, event by event *)

Section Steps.

Import Editor.

Implicit Types (s : State) (ev : Event).

Lemma render_elements s :
  cursorRect (render s) = cursorRect s /\
  contentElement (render s) = contentElement s.
Proof.
  unfold render. destruct (textareaElement s); split; reflexivity.
Qed.

Lemma typed_fields text s :
  content (typed text s) = content s /\
  cursorIndex (typed text s) = cursorIndex s /\
  contentElement (typed text s) = contentElement s.
Proof.
  unfold typed. destruct (textareaElement s); repeat split.
Qed.

End Steps.

(** ** The cursor rectangle in the state *)

Lemma rectEqual_refl (r : IRect) : rectEqual r r = true.
Proof.
  unfold rectEqual, JS.eqb. now rewrite !Qeq_bool_refl.
Qed.

Lemma sameElement_refl (e : Element) : sameElement e e = true.
Proof. unfold sameElement. apply N.eqb_refl. Qed.

(** The outcome of [cursorRectForIndex] by the position of the index. *)
Lemma cursorRectForIndex_outcome (index : Z) (inElement : Element) :
  (index < 0 \/ len (terminalElements inElement) < index ->
   cursorRectForIndex index inElement
   = Throw (InvalidCursorIndex index (len (terminalElements inElement)))) /\
  (0 <= index <= len (terminalElements inElement) ->
   exists rect, cursorRectForIndex index inElement = Return rect).
Proof.
  unfold cursorRectForIndex. cbv zeta.
  pose proof (terminalElements_not_nil inElement) as Hne.
  split.
  - intros Hout. now apply rectForIndex_outside.
  - intros Hin.
    destruct (Z.eq_dec index (len (terminalElements inElement)))
      as [-> | Hlt].
    + destruct (get_last_exists _ Hne) as [last Hlast].
      rewrite (rectForIndex_at_end _ last Hne Hlast). eauto.
    + assert (Hex : exists elem,
                get (terminalElements inElement) index = Some elem)
        by (apply get_Some_iff; lia).
      destruct Hex as [elem Helem].
      rewrite (rectForIndex_inside _ index elem Helem). eauto.
Qed.

(** X7. [updateContentElement] settles after one call.  When it returns a
    new state for an element, that state differs from the old one in the
    cursor rectangle and the content element at most, its cursor rectangle
    equals the rectangle computed for the cursor index, its content
    element is the given node, and calling it again on the new state with
    the same element returns [null]: no further state change, so the
    [ref] callback that runs on every render does not loop. *)
Theorem updateContentElement_settles (c : Element) (s s' : State) :
  updateContentElement (Some c) s = Return (Some s') ->
  updateContentElement (Some c) s' = Return None /\
  (exists rect old,
     cursorRectForIndex (cursorIndex s) c = Return rect /\
     rectEqual rect (cursorRect s') = true /\
     contentElement s' = Some old /\ sameElement c old = true) /\
  content s' = content s /\
  inputText s' = inputText s /\
  cursorIndex s' = cursorIndex s /\
  textareaElement s' = textareaElement s /\
  composition s' = composition s.
Proof.
  unfold updateContentElement.
  destruct (cursorRectForIndex (cursorIndex s) c) as [rect |] eqn:Hrect;
    [| discriminate].
  destruct (rectEqual rect (cursorRect s)) eqn:Hr;
    destruct (contentElement s) as [old |] eqn:Hold;
    try destruct (sameElement c old) eqn:Hsame;
    cbn [negb andb]; intros H; try discriminate; injection H as <-;
    cbn [cursorIndex withContentElement withCursorRect contentElement
         cursorRect content inputText textareaElement composition];
    rewrite ?Hold, ?Hrect; cbn [cursorRect contentElement];
    rewrite ?Hsame, ?Hr, ?rectEqual_refl, ?sameElement_refl;
    cbn [negb andb].
  all: split; [reflexivity |].
  all: split; [| repeat split].
  all: eexists; eexists; split; [reflexivity |].
  all: split; [first [exact Hr | apply rectEqual_refl] |].
  all: split; [reflexivity |].
  all: first [exact Hsame | apply sameElement_refl].
Qed.

Lemma updateContentElement_settles_witness :
  exists s',
    updateContentElement (Some Sample.container)
                         (Sample.mounted (lit "abc") 1) = Return (Some s') /\
    updateContentElement (Some Sample.container) s' = Return None /\
    cursorIndex s' = 1.
Proof.
  eexists. split; [reflexivity |].
  match goal with
  | |- updateContentElement _ ?x = _ /\ _ =>
      destruct (updateContentElement_settles Sample.container
                  (Sample.mounted (lit "abc") 1) x eq_refl)
        as (Hagain & _ & _ & _ & Hindex & _)
  end.
  split; [exact Hagain | exact Hindex].
Defined.

(** ** What a step can and cannot do *)

Section StepProperties.

Import Editor.

Implicit Types (s : State) (ev : Event).

(** X8. The steps that throw.  A step of the component throws in two
    cases and no other.  The change event of the textarea always throws a
    [TypeError], because its handler is called without its receiver.  The
    [ref] callback of the content container, called with an element,
    throws in a state whose cursor index is negative or exceeds the
    number of terminals of that element; what is thrown is the
    invalid-cursor-index error with that index and that number.  Every
    other event of the user, and the [ref] callback of the textarea,
    returns a state. *)
Theorem step_throws_iff ev s (err : Error) :
  step ev s = Throw err <->
  (exists text, ev = Change text /\ err = TypeError) \/
  exists c,
    ev = RefContent (Some c) /\
    (cursorIndex s < 0 \/ len (terminalElements c) < cursorIndex s) /\
    err = InvalidCursorIndex (cursorIndex s) (len (terminalElements c)).
Proof.
  rewrite step_outcome. split.
  - destruct ev; try discriminate.
    { intros H. injection H as <-. left. eauto. }
    destruct c as [c |]; [| discriminate].
    unfold updateContentElement.
    destruct (cursorRectForIndex_outcome (cursorIndex s) c) as [Hout Hin].
    destruct (Z.ltb_spec (cursorIndex s) 0) as [Hneg | Hpos];
      [| destruct (Z.ltb_spec (len (terminalElements c)) (cursorIndex s))
           as [Hbig | Hsmall]].
    + rewrite Hout by lia. intros H. injection H as <-. right. eauto.
    + rewrite Hout by lia. intros H. injection H as <-. right. eauto.
    + destruct Hin as [rect Hrect]; [lia |]. rewrite Hrect.
      destruct (negb (negb (rectEqual rect (cursorRect s))) && _);
        discriminate.
  - intros [(text & -> & ->) | (c & -> & Hout & ->)]; [reflexivity |].
    unfold updateContentElement.
    destruct (cursorRectForIndex_outcome (cursorIndex s) c) as [Hthrow _].
    now rewrite Hthrow.
Qed.

Lemma moveCursorDelta_content delta s :
  content (moveCursorDelta delta s) = content s /\
  contentElement (moveCursorDelta delta s) = contentElement s.
Proof.
  unfold moveCursorDelta. destruct (contentElement s) eqn:E; cbn;
    rewrite ?E; split; reflexivity.
Qed.

Lemma fixTextarea_elements s :
  contentElement (fixTextarea s) = contentElement s /\
  textareaElement (fixTextarea s) = textareaElement s.
Proof.
  unfold fixTextarea. destruct (textareaElement s) eqn:E; cbn; rewrite ?E;
    split; reflexivity.
Qed.

Lemma moveCursorWithClick_elements e s :
  contentElement (moveCursorWithClick e s) = contentElement s.
Proof.
  unfold moveCursorWithClick. now destruct (textareaElement s).
Qed.

Lemma updateContentElement_attached c s s' :
  updateContentElement c s = Return (Some s') ->
  content s' = content s /\
  cursorIndex s' = cursorIndex s /\
  (contentElement s <> None -> contentElement s' <> None).
Proof.
  unfold updateContentElement. destruct c as [c' |]; [| discriminate].
  destruct (cursorRectForIndex (cursorIndex s) c'); [| discriminate].
  destruct (negb (negb (rectEqual a (cursorRect s))) && _);
    [discriminate |].
  intros H. injection H as <-.
  destruct (contentElement s) as [old |] eqn:Hold;
    [destruct (negb (sameElement c' old)) |];
    destruct (negb (rectEqual a (cursorRect s))); cbn; rewrite ?Hold;
    repeat split; discriminate.
Qed.

(** X10. What a step never does.  A step that returns never detaches the
    textarea or the content element once one is attached, and it changes
    the content only when it is a Backspace key, an input change outside
    a composition, or a composition end during a composition: cursor
    keys, clicks, composition starts and updates, input changes during a
    composition and the [ref] callbacks leave the content as it is. *)
Theorem step_frame ev s s' :
  step ev s = Return s' ->
  (textareaElement s <> None -> textareaElement s' <> None) /\
  (contentElement s <> None -> contentElement s' <> None) /\
  (content s' <> content s ->
   ev = KeyDown "Backspace" \/
   (exists text, ev = Change text /\ composition s = false) \/
   (ev = CompositionEnd /\ composition s = true)).
Proof.
  rewrite step_outcome. intros Hstep.
  destruct ev.
  - (* keydown *)
    injection Hstep as <-.
    match goal with
    | |- context [render ?x] =>
        destruct (render_fields x) as (Hc & _ & _ & _ & Hta);
        destruct (render_elements x) as (_ & Hce)
    end.
    rewrite Hc, Hce, Hta.
    destruct (String.eqb_spec key "Backspace") as [-> | _];
      [repeat split; auto |].
    destruct (String.eqb key "ArrowLeft");
      [| destruct (String.eqb key "ArrowRight")].
    + destruct (moveCursorDelta_gate (-1) s) as (_ & _ & Hta').
      destruct (moveCursorDelta_content (-1) s) as (Hc' & Hce').
      rewrite Hta', Hc', Hce'. repeat split; auto. contradiction.
    + destruct (moveCursorDelta_gate 1 s) as (_ & _ & Hta').
      destruct (moveCursorDelta_content 1 s) as (Hc' & Hce').
      rewrite Hta', Hc', Hce'. repeat split; auto. contradiction.
    + repeat split; auto. contradiction.
  - (* change *)
    discriminate.
  - (* compositionstart *)
    injection Hstep as <-.
    destruct (render_fields (withComposition true s))
      as (Hc & _ & _ & _ & Hta).
    destruct (render_elements (withComposition true s)) as (_ & Hce).
    rewrite Hc, Hce, Hta. repeat split; auto. contradiction.
  - (* compositionupdate *)
    injection Hstep as <-.
    destruct (render_fields s) as (Hc & _ & _ & _ & Hta).
    destruct (render_elements s) as (_ & Hce).
    rewrite Hc, Hce, Hta. repeat split; auto. contradiction.
  - (* compositionend *)
    injection Hstep as <-.
    match goal with
    | |- context [render ?x] =>
        destruct (render_fields x) as (Hc & _ & _ & _ & Hta);
        destruct (render_elements x) as (_ & Hce)
    end.
    rewrite Hc, Hce, Hta.
    destruct (composition s) eqn:Hcomp.
    + destruct (fixTextarea_elements s) as (Hfe & Hft).
      rewrite Hfe, Hft. repeat split; auto.
    + repeat split; auto. contradiction.
  - (* click *)
    injection Hstep as <-.
    destruct (render_fields (moveCursorWithClick e s))
      as (Hc & _ & _ & _ & Hta).
    destruct (render_elements (moveCursorWithClick e s)) as (_ & Hce).
    destruct (moveCursorWithClick_gate e s) as (_ & _ & Hta').
    rewrite Hc, Hce, Hta, Hta', moveCursorWithClick_content,
      moveCursorWithClick_elements.
    repeat split; auto. contradiction.
  - (* ref of the textarea *)
    injection Hstep as <-.
    match goal with
    | |- context [render ?x] =>
        destruct (render_fields x) as (Hc & _ & _ & _ & Hta);
        destruct (render_elements x) as (_ & Hce)
    end.
    rewrite Hc, Hce, Hta.
    destruct c as [c' |]; [destruct (textareaElement s) eqn:Ht |];
      cbn; rewrite ?Ht; repeat split; auto; try contradiction;
      discriminate.
  - (* ref of the content container *)
    destruct (updateContentElement c s) as [[s1 |] |] eqn:Hu;
      [| | discriminate]; injection Hstep as <-.
    + destruct (render_fields s1) as (Hc & _ & _ & _ & Hta).
      destruct (render_elements s1) as (_ & Hce).
      destruct (updateContentElement_gate c s s1 Hu) as (_ & _ & Hta').
      destruct (updateContentElement_attached c s s1 Hu)
        as (Hc' & _ & Hce').
      rewrite Hc, Hce, Hta, Hta', Hc'. repeat split; auto. contradiction.
    + destruct (render_fields s) as (Hc & _ & _ & _ & Hta).
      destruct (render_elements s) as (_ & Hce).
      rewrite Hc, Hce, Hta. repeat split; auto. contradiction.
Qed.

Lemma step_frame_witness :
  exists s',
    step (KeyDown "ArrowLeft") (Sample.mounted (lit "abc") 2) = Return s' /\
    textareaElement s' <> None /\
    contentElement s' <> None.
Proof.
  eexists. split; [reflexivity |].
  match goal with
  | |- textareaElement ?x <> None /\ _ =>
      destruct (step_frame (KeyDown "ArrowLeft")
                  (Sample.mounted (lit "abc") 2) x eq_refl)
        as (Hta & Hce & _)
  end.
  split; [apply Hta | apply Hce]; discriminate.
Defined.

End StepProperties.

(** ** Position resolution *)

Section ChildIndex.

Implicit Types (a : list Element) (x : Element).

Lemma indexOfFrom_found a x (i : Z) :
  (indexOfFrom a x i = -1 /\
   Forall (fun y => sameElement y x = false) a) \/
  (exists y,
     get a (indexOfFrom a x i - i) = Some y /\
     sameElement y x = true /\
     i <= indexOfFrom a x i < i + len a /\
     Forall (fun z => sameElement z x = false)
            (firstn (Z.to_nat (indexOfFrom a x i - i)) a)).
Proof.
  revert i. induction a as [| y a IH]; intros i.
  - left. split; [reflexivity | constructor].
  - cbn [indexOfFrom]. destruct (sameElement y x) eqn:Hsame.
    + right. exists y. rewrite Z.sub_diag.
      split; [reflexivity |]. split; [assumption |].
      split; [unfold len; cbn [List.length]; lia | constructor].
    + destruct (IH (i + 1)) as [[Hnone Hall] | (z & Hget & Hz & Hrange & Hpre)].
      * left. split; [assumption | now constructor].
      * right. exists z.
        assert (Hlen : len (y :: a) = len a + 1)
          by (unfold len; cbn [List.length]; lia).
        rewrite Hlen.
        replace (indexOfFrom a x (i + 1) - i)
          with ((indexOfFrom a x (i + 1) - (i + 1)) + 1) by lia.
        repeat split; try assumption; try lia.
        -- unfold get in *.
           destruct (Z.ltb_spec (indexOfFrom a x (i + 1) - (i + 1)) 0);
             [discriminate |].
           destruct (Z.ltb_spec (indexOfFrom a x (i + 1) - (i + 1) + 1) 0);
             [lia |].
           replace (Z.to_nat (indexOfFrom a x (i + 1) - (i + 1) + 1))
             with (S (Z.to_nat (indexOfFrom a x (i + 1) - (i + 1))))
             by lia.
           exact Hget.
        -- replace (Z.to_nat (indexOfFrom a x (i + 1) - (i + 1) + 1))
             with (S (Z.to_nat (indexOfFrom a x (i + 1) - (i + 1))))
             by lia.
           cbn [firstn]. now constructor.
Qed.

End ChildIndex.

(** X9. What [getChildIndex] answers.  For a node without parent it is
    -1.  For a node with a parent, let the siblings be the children of the
    parent that the filter does not reject.  The answer is -1 exactly when
    no sibling is the node; otherwise it is the position of the first
    sibling that is the node, so it is at least 0 and less than the number
    of siblings, and the element found there is not rejected by the
    filter.  The answer is never below -1. *)
Theorem getChildIndex_answer (elem : HTMLElement)
    (filter : Element -> bool) :
  let siblings :=
    match parentElement elem with
    | Some parent =>
        List.filter (fun e => negb (filter e)) (children parent)
    | None => []
    end in
  let answer := getChildIndex elem filter in
  -1 <= answer < len siblings /\
  (parentElement elem = None -> answer = -1) /\
  (answer = -1 <->
   Forall (fun y => sameElement y (element elem) = false) siblings) /\
  (0 <= answer ->
   exists y,
     get siblings answer = Some y /\
     sameElement y (element elem) = true /\
     filter y = false /\
     Forall (fun z => sameElement z (element elem) = false)
            (firstn (Z.to_nat answer) siblings)).
Proof.
  intros siblings answer. subst siblings answer. unfold getChildIndex.
  destruct (parentElement elem) as [parent |].
  2: { split; [unfold len; cbn; lia |]. split; [reflexivity |].
       split; [split; [constructor | reflexivity] | intros; lia]. }
  unfold indexOf.
  set (sib := List.filter (fun e => negb (filter e)) (children parent)).
  pose proof (len_nonneg sib) as Hlen.
  destruct (indexOfFrom_found sib (element elem) 0)
    as [[Hnone Hall] | (y & Hget & Hy & Hrange & Hpre)].
  - rewrite Hnone. split; [lia |]. split; [discriminate |].
    split; [split; auto | intros; lia].
  - rewrite Z.sub_0_r in Hget, Hpre.
    assert (Hin : In y sib).
    { unfold get in Hget. destruct (_ <? 0); [discriminate |].
      eapply nth_error_In; eassumption. }
    split; [lia |]. split; [discriminate |]. split.
    + split; [intros; lia |].
      intros Hall. exfalso.
      rewrite Forall_forall in Hall. rewrite (Hall y Hin) in Hy.
      discriminate.
    + intros _. exists y. repeat split; try assumption.
      apply filter_In in Hin. destruct Hin as [_ Hneg].
      now destruct (filter y).
Qed.

Section NonNegativeCursor.

Import Editor.

(** X11. How the cursor index can become negative.  A step that starts
    from a non-negative cursor index and returns leaves it non-negative,
    unless the step is a click whose target [getChildIndex] does not find
    (answer -1) and which falls in the left half; the cursor index is then
    exactly -1.  Keys, input changes, composition events and the [ref]
    callbacks never make the cursor index negative. *)
Theorem step_negative_cursor ev (s s' : State) :
  step ev s = Return s' ->
  0 <= cursorIndex s ->
  (0 <= cursorIndex s' \/
   exists e,
     ev = Click e /\
     textareaElement s <> None /\
     getChildIndex (target e) isCursor = -1 /\
     gtb (clientX e - left (getBoundingClientRect (element (target e))))
         (width (getBoundingClientRect (element (target e))) / 2) = false /\
     cursorIndex s' = -1).
Proof.
  rewrite step_outcome. intros Hstep Hpos.
  destruct ev.
  - injection Hstep as <-. left.
    match goal with
    | |- context [render ?x] =>
        destruct (render_fields x) as (_ & _ & Hi & _)
    end.
    rewrite Hi.
    destruct (String.eqb key "Backspace");
      [rewrite removeCharacterAtCursor_cursorIndex; lia |].
    destruct (String.eqb key "ArrowLeft");
      [| destruct (String.eqb key "ArrowRight"); [| exact Hpos]];
      unfold moveCursorDelta;
      (destruct (contentElement s) as [c |]; [| exact Hpos]);
      pose proof (len_nonneg (terminalElements c));
      cbn [cursorIndex withCursorIndex]; lia.
  - discriminate.
  - injection Hstep as <-. left.
    destruct (render_fields (withComposition true s)) as (_ & _ & Hi & _).
    now rewrite Hi.
  - injection Hstep as <-. left.
    destruct (render_fields s) as (_ & _ & Hi & _). now rewrite Hi.
  - injection Hstep as <-. left.
    match goal with
    | |- context [render ?x] =>
        destruct (render_fields x) as (_ & _ & Hi & _)
    end.
    rewrite Hi. destruct (composition s); [| exact Hpos].
    unfold fixTextarea. destruct (textareaElement s) as [ta |];
      [| exact Hpos].
    cbn [cursorIndex withContent withCursorIndex].
    pose proof (len_nonneg (value ta)). lia.
  - injection Hstep as <-.
    destruct (render_fields (moveCursorWithClick e s)) as (_ & _ & Hi & _).
    rewrite Hi.
    destruct (textareaElement s) as [ta |] eqn:Hta.
    + rewrite (moveCursorWithClick_cursorIndex e s ta Hta).
      pose proof (indexOfFrom_shift
        (match parentElement (target e) with
         | Some parent =>
             List.filter (fun x => negb (isCursor x)) (children parent)
         | None => []
         end) (element (target e)) 0) as Hshift.
      assert (Hge : getChildIndex (target e) isCursor = -1 \/
                    0 <= getChildIndex (target e) isCursor).
      { unfold getChildIndex, indexOf.
        destruct (parentElement (target e)); [exact Hshift | now left]. }
      destruct (gtb _ _) eqn:Hhalf.
      * left. lia.
      * destruct Hge as [Hminus | Hfound]; [| left; lia].
        right. exists e. rewrite Hminus.
        repeat split; try reflexivity; try assumption. discriminate.
    + left. unfold moveCursorWithClick. now rewrite Hta.
  - injection Hstep as <-. left.
    match goal with
    | |- context [render ?x] =>
        destruct (render_fields x) as (_ & _ & Hi & _)
    end.
    rewrite Hi.
    destruct c as [c' |]; [destruct (textareaElement s) |]; exact Hpos.
  - left.
    destruct (updateContentElement c s) as [[s1 |] |] eqn:Hu;
      [| | discriminate]; injection Hstep as <-.
    + destruct (render_fields s1) as (_ & _ & Hi & _).
      destruct (updateContentElement_attached c s s1 Hu) as (_ & Hi' & _).
      now rewrite Hi, Hi'.
    + destruct (render_fields s) as (_ & _ & Hi & _). now rewrite Hi.
Qed.

Lemma step_negative_cursor_witness :
  exists s',
    step (KeyDown "Backspace") (Sample.mounted (lit "abc") 0) = Return s' /\
    0 <= cursorIndex s'.
Proof.
  eexists. split; [reflexivity |].
  match goal with
  | |- 0 <= cursorIndex ?x =>
      destruct (step_negative_cursor (KeyDown "Backspace")
                  (Sample.mounted (lit "abc") 0) x eq_refl)
        as [Hpos | (e & He & _)]
  end.
  - cbn. lia.
  - exact Hpos.
  - discriminate He.
Defined.

End NonNegativeCursor.

(** ** The rendered content *)

Section Rendering.

Context (layout : N -> IRect).

Lemma mount_equation t p x cs (n : N) :
  mount layout (ReactElement t p x cs) n
  = let (elems, n') := mountList layout cs (n + 1)%N in
    (mkElement n p (layout n) elems, n').
Proof. reflexivity. Qed.

Lemma mountList_app (l1 l2 : list ReactNode) (n : N) :
  mountList layout (l1 ++ l2) n
  = let (es1, n1) := mountList layout l1 n in
    let (es2, n2) := mountList layout l2 n1 in
    (es1 ++ es2, n2).
Proof.
  revert n. induction l1 as [| c l1 IH]; intros n; cbn [app mountList].
  - now destruct (mountList layout l2 n).
  - destruct (mount layout c n) as [e n1]. rewrite IH.
    destruct (mountList layout l1 n1) as [es1 n2].
    now destruct (mountList layout l2 n2).
Qed.

Lemma mount_root node (n : N) :
  nodeId (fst (mount layout node n)) = n /\
  pointerEvents (fst (mount layout node n))
  = match node with ReactElement _ p _ _ => p end.
Proof.
  destruct node as [t p x cs]. rewrite mount_equation.
  now destruct (mountList layout cs (n + 1)%N).
Qed.

Lemma mount_next node : forall n, (n < snd (mount layout node n))%N.
Proof.
  induction node as [t p x cs IH] using ReactNode_children_ind.
  intros n. rewrite mount_equation.
  assert (Hlist : forall m, (m <= snd (mountList layout cs m))%N).
  { induction IH as [| c cs' Hc _ IHcs]; intros m; cbn [mountList snd].
    - lia.
    - specialize (Hc m). destruct (mount layout c m) as [e n1].
      specialize (IHcs n1). destruct (mountList layout cs' n1) as [es n2].
      cbn [snd] in *. lia. }
  specialize (Hlist (n + 1)%N).
  destruct (mountList layout cs (n + 1)%N) as [es n']. cbn [snd] in *. lia.
Qed.

(** The roots of mounted siblings carry increasing, hence distinct,
    identities. *)
Lemma mountList_ids (ns : list ReactNode) :
  forall n,
    (n <= snd (mountList layout ns n))%N /\
    Forall (fun e => (n <= nodeId e < snd (mountList layout ns n))%N)
           (fst (mountList layout ns n)) /\
    NoDup (map nodeId (fst (mountList layout ns n))).
Proof.
  induction ns as [| c ns IH]; intros n; cbn [mountList].
  - cbn. repeat split; [lia | constructor | constructor].
  - pose proof (mount_next c n) as Hnext.
    destruct (mount_root c n) as [Hid _].
    destruct (mount layout c n) as [e n1]. cbn [fst snd] in *.
    destruct (IH n1) as (Hle & Hall & Hnd).
    destruct (mountList layout ns n1) as [es n2]. cbn [fst snd] in *.
    split; [lia |]. split.
    + constructor; [lia |].
      eapply Forall_impl; [| exact Hall]. cbn. intros a Ha. lia.
    + cbn [map]. constructor; [| exact Hnd].
      rewrite Hid. intros Hin. apply in_map_iff in Hin.
      destruct Hin as (a & Ha & Hin).
      rewrite Forall_forall in Hall. specialize (Hall a Hin). lia.
Qed.

(** The number of terminals of a React tree. *)
Lemma mount_terminals_length node :
  forall n,
    len (terminalElements (fst (mount layout node n)))
    = match node with
      | ReactElement _ _ _ [] => 1
      | ReactElement _ _ _ cs =>
          len (flat_map terminalElements
                        (fst (mountList layout cs (n + 1)%N)))
      end.
Proof.
  intros n. destruct node as [t p x cs]. rewrite mount_equation.
  destruct cs as [| c cs]; [reflexivity |].
  destruct (mountList layout (c :: cs) (n + 1)%N) as [es n'] eqn:E.
  cbn [fst]. rewrite terminalElements_equation. cbn [children].
  destruct es as [| e es]; [| reflexivity].
  cbn [mountList] in E. destruct (mount layout c (n + 1)%N).
  destruct (mountList layout cs n0). discriminate.
Qed.

Lemma mountList_length (ns : list ReactNode) :
  forall n, List.length (fst (mountList layout ns n)) = List.length ns.
Proof.
  induction ns as [| c ns IH]; intros n; cbn [mountList]; [reflexivity |].
  destruct (mount layout c n) as [e n1]. specialize (IH n1).
  destruct (mountList layout ns n1) as [es n2]. cbn in *. now rewrite IH.
Qed.

(** Childless React elements mount to their own single terminal. *)
Lemma mountList_leaves_terminals (ns : list ReactNode) :
  Forall (fun c => match c with ReactElement _ _ _ cs => cs = [] end) ns ->
  forall n,
    flat_map terminalElements (fst (mountList layout ns n))
    = fst (mountList layout ns n).
Proof.
  induction 1 as [| c ns Hc _ IH]; intros n; cbn [mountList];
    [reflexivity |].
  destruct c as [t p x cs]. subst cs. rewrite mount_equation.
  cbn [mountList]. specialize (IH (n + 1)%N).
  destruct (mountList layout ns (n + 1)%N) as [es n2]. cbn [fst] in *.
  cbn [flat_map]. rewrite IH. reflexivity.
Qed.

End Rendering.

Lemma inserted_at_resolved {T : Type} (a : list T) (x : T) (i : Z) :
  inserted a x i
  = firstn (Z.to_nat (relIndex (len a) i)) a
      ++ x :: skipn (Z.to_nat (relIndex (len a) i)) a.
Proof.
  unfold inserted. now rewrite slice_prefix_any, sliceFrom_suffix_any.
Qed.

Lemma Forall_cut {T : Type} (P : T -> Prop) (n : nat) (l : list T) :
  Forall P l -> Forall P (firstn n l) /\ Forall P (skipn n l).
Proof.
  intros H. rewrite <- (firstn_skipn n l) in H.
  now apply Forall_app in H.
Qed.

Lemma filter_all {T : Type} (f : T -> bool) (l : list T) :
  Forall (fun x => f x = true) l -> List.filter f l = l.
Proof.
  induction 1 as [| x l Hx _ IH]; cbn; [reflexivity |].
  now rewrite Hx, IH.
Qed.

Lemma NoDup_map_filter {T U : Type} (g : T -> U) (f : T -> bool)
    (l : list T) :
  NoDup (map g l) -> NoDup (map g (List.filter f l)).
Proof.
  induction l as [| x l IH]; cbn; intros Hnd; [constructor |].
  inversion Hnd as [| ? ? Hnotin Hnd']; subst.
  destruct (f x); [| auto].
  cbn. constructor; [| auto].
  intros Hin. apply Hnotin. apply in_map_iff in Hin.
  destruct Hin as (y & Hy & Hin). apply filter_In in Hin.
  apply in_map_iff. exists y. tauto.
Qed.

Lemma flat_map_leaves (l : list Element) :
  Forall (fun e => children e = []) l -> flat_map terminalElements l = l.
Proof.
  induction 1 as [| e l He _ IH]; cbn [flat_map]; [reflexivity |].
  rewrite terminalElements_equation, He, IH. reflexivity.
Qed.

(** The terminals of an element whose children are given around one of
    them. *)
Lemma terminalElements_around i p r (l1 : list Element) (e : Element)
    (l2 : list Element) :
  terminalElements (mkElement i p r (l1 ++ e :: l2))
  = flat_map terminalElements l1 ++ terminalElements e
      ++ flat_map terminalElements l2.
Proof.
  rewrite terminalElements_equation. cbn [children].
  destruct l1 as [| x l1]; [reflexivity |].
  cbn [app flat_map]. rewrite flat_map_app. cbn [flat_map].
  now rewrite <- app_assoc.
Qed.

Lemma mapContentToComponent_glyphs (str : jsstring) :
  Forall isGlyph (map mapContentToComponent (split str)).
Proof.
  apply Forall_forall. intros c Hin.
  apply in_map_iff in Hin. destruct Hin as (u & <- & _).
  unfold mapContentToComponent, isGlyph.
  now destruct (streq u newline).
Qed.

Section InsertedDocument.

Context (layout : N -> IRect).

Lemma mounted_glyphs (l : list ReactNode) (n : N) :
  Forall isGlyph l ->
  Forall (fun e => children e = [] /\ negb (isCursor e) = true)
         (fst (mountList layout l n)).
Proof.
  intros Hall. revert n.
  induction Hall as [| c l Hc _ IH]; intros n; cbn [mountList];
    [constructor |].
  destruct c as [t p x cs]. destruct Hc as [-> ->].
  rewrite mount_equation. cbn [mountList]. specialize (IH (n + 1)%N).
  destruct (mountList layout l (n + 1)%N) as [es n2]. cbn [fst] in *.
  constructor; [| exact IH]. split; reflexivity.
Qed.

(** The document of a content container whose components are glyphs with
    one component of the pending input inserted among them: the [div],
    the [b] in it, and in the [b] the glyphs before the insertion point,
    the mounted component of the pending input, and the glyphs after
    it. *)
Lemma insertedDocument_structure (glyphNodes : list ReactNode)
    (caretNode : ReactNode) (i : Z) :
  Forall isGlyph glyphNodes ->
  match caretNode with ReactElement _ p _ _ => p = "none"%string end ->
  exists before caretElement after n,
    fst (mount layout
           (contentContainer (inserted glyphNodes caretNode i)) 0%N)
    = mkElement 0 "" (layout 0%N)
        [mkElement 1 "" (layout 1%N) (before ++ caretElement :: after)] /\
    caretElement = fst (mount layout caretNode n) /\
    isCursor caretElement = true /\
    len before = relIndex (len glyphNodes) i /\
    len before + len after = len glyphNodes /\
    Forall (fun e => children e = [] /\ negb (isCursor e) = true)
           (before ++ after) /\
    NoDup (map nodeId (before ++ caretElement :: after)).
Proof.
  intros Hglyphs Hcaret.
  set (k := Z.to_nat (relIndex (len glyphNodes) i)).
  pose proof (relIndex_range (len glyphNodes) i (len_nonneg glyphNodes))
    as Hk.
  destruct (Forall_cut _ k _ Hglyphs) as [Hfirst Hrest].
  pose proof (mountList_ids layout
                (firstn k glyphNodes ++ caretNode :: skipn k glyphNodes)
                2%N) as (_ & _ & Hnd).
  unfold contentContainer. rewrite mount_equation. cbn [mountList N.add].
  rewrite mount_equation, inserted_at_resolved. fold k.
  change (1 + 1)%N with 2%N.
  rewrite mountList_app in Hnd |- *.
  pose proof (mounted_glyphs (firstn k glyphNodes) 2%N Hfirst) as Hb.
  pose proof (mountList_length layout (firstn k glyphNodes) 2%N) as Hlb.
  destruct (mountList layout (firstn k glyphNodes) 2%N) as [es1 n1].
  cbn [mountList fst snd] in Hnd |- *.
  destruct (mount_root layout caretNode n1) as [_ Hpe].
  assert (Hce : exists e n2, mount layout caretNode n1 = (e, n2))
    by (destruct (mount layout caretNode n1); eauto).
  destruct Hce as (e & n2 & Hce). rewrite Hce in Hnd, Hpe |- *.
  cbn [fst snd] in Hnd, Hpe |- *.
  pose proof (mounted_glyphs (skipn k glyphNodes) n2 Hrest) as Ha.
  pose proof (mountList_length layout (skipn k glyphNodes) n2) as Hla.
  destruct (mountList layout (skipn k glyphNodes) n2) as [es2 n3].
  cbn [fst snd] in *.
  exists es1, e, es2, n1. split; [reflexivity |].
  split; [now rewrite Hce |].
  split.
  { unfold isCursor. rewrite Hpe. destruct caretNode as [t p x cs].
    now subst p. }
  assert (Hsplit : (List.length (firstn k glyphNodes)
                    + List.length (skipn k glyphNodes))%nat
                   = List.length glyphNodes).
  { rewrite <- length_app. now rewrite firstn_skipn. }
  split.
  { unfold len in *. rewrite Hlb, length_firstn. subst k. lia. }
  split; [unfold len in *; lia |].
  split; [apply Forall_app; split; assumption | exact Hnd].
Qed.

End InsertedDocument.

Section RenderedContent.

Context (layout : N -> IRect).

Implicit Types (s : State).

Lemma glyphs_len (str : jsstring) :
  len (map mapContentToComponent (split str)) = len str.
Proof. unfold len, split. now rewrite !length_map. Qed.

(** The span of the pending input has one terminal per pending unit, and
    is its own terminal when nothing is pending. *)
Lemma pendingSpan_terminals (text : jsstring) (n : N) :
  len (terminalElements
         (fst (mount layout
                 (ReactElement "span" "none" (lit "")
                    (map (fun t => ReactElement "span" "" t [])
                         (split text))) n)))
  = Z.max 1 (len text).
Proof.
  rewrite mount_terminals_length.
  destruct text as [| u rest]; [reflexivity |].
  cbn [split map].
  change (ReactElement "span" "" [u] []
            :: map (fun t => ReactElement "span" "" t [])
                   (map (fun v => [v]) rest))
    with (map (fun t => ReactElement "span" "" t []) (split (u :: rest))).
  rewrite mountList_leaves_terminals.
  - unfold len. rewrite mountList_length. unfold split.
    rewrite !length_map. cbn [List.length]. lia.
  - apply Forall_forall. intros c Hin. apply in_map_iff in Hin.
    now destruct Hin as (t & <- & _).
Qed.

Lemma leaves_of_glyphs (l : list Element) :
  Forall (fun e => children e = [] /\ negb (isCursor e) = true) l ->
  flat_map terminalElements l = l /\
  List.filter (fun e => negb (isCursor e)) l = l.
Proof.
  intros Hall. split.
  - apply flat_map_leaves. eapply Forall_impl; [| exact Hall].
    now intros e [He _].
  - apply filter_all. eapply Forall_impl; [| exact Hall].
    now intros e [_ He].
Qed.

Lemma contentDocument_terminals_length s :
  len (terminalElements (contentDocument layout s))
  = len (content s) + Z.max 1 (len (inputText s)).
Proof.
  unfold contentDocument, renderContent.
  destruct (insertedDocument_structure layout
              (map mapContentToComponent (split (content s)))
              (ReactElement "span" "none" (lit "")
                 (map (fun t => ReactElement "span" "" t [])
                      (split (inputText s))))
              (cursorIndex s)
              (mapContentToComponent_glyphs (content s)) eq_refl)
    as (before & ce & after & n & Hdoc & Hce & _ & _ & Hsum & Hall & _).
  rewrite Hdoc, terminalElements_equation. cbn [children flat_map].
  rewrite app_nil_r, terminalElements_around, !len_app.
  apply Forall_app in Hall. destruct Hall as [Hb Ha].
  destruct (leaves_of_glyphs before Hb) as [-> _].
  destruct (leaves_of_glyphs after Ha) as [-> _].
  rewrite Hce, pendingSpan_terminals. rewrite glyphs_len in Hsum. lia.
Qed.

(** X13. The terminals of the rendered content.  For every state and
    every layout, the document that [render] draws for the content has
    one terminal per unit of the content plus the terminals of the span of
    the pending input: one per pending unit, and the span itself when the
    pending input is empty.  So [terminalElements] on it returns
    [content.length + max(1, inputText.length)] elements, and that number,
    not the length of the content, is the bound [moveCursorDelta] clamps
    the cursor index to in a state that shows this document. *)
Theorem rendered_terminals_count s :
  len (terminalElements (contentDocument layout s))
  = len (content s) + Z.max 1 (len (inputText s)) /\
  forall s' delta,
    contentElement s' = Some (contentDocument layout s) ->
    cursorIndex (moveCursorDelta delta s')
    = Z.min (len (content s) + Z.max 1 (len (inputText s)))
            (Z.max 0 (cursorIndex s' + delta)).
Proof.
  split; [apply contentDocument_terminals_length |].
  intros s' delta Hce.
  rewrite (moveCursorDelta_cursorIndex s' _ Hce).
  now rewrite contentDocument_terminals_length.
Qed.

(** X14. Position resolution on the rendered content.  Take the document
    that [render] draws for a state, whatever the layout and wherever the
    cursor index stands.  Its [b] element has, besides the span of the
    pending input, exactly one child per unit of the content, in order,
    and [getChildIndex], with the caret test as its filter, answers [j]
    for the [j]-th of them, whether the span of the pending input stands
    before or after it: the answer is the offset of the unit in the
    content. *)
Theorem rendered_glyph_child_index s :
  exists b,
    children (contentDocument layout s) = [b] /\
    len (List.filter (fun e => negb (isCursor e)) (children b))
    = len (content s) /\
    forall (j : nat) (g : Element),
      nth_error (List.filter (fun e => negb (isCursor e)) (children b)) j
      = Some g ->
      getChildIndex (mkHTMLElement g (Some b)) isCursor = Z.of_nat j /\
      0 <= Z.of_nat j < len (content s).
Proof.
  unfold contentDocument, renderContent.
  destruct (insertedDocument_structure layout
              (map mapContentToComponent (split (content s)))
              (ReactElement "span" "none" (lit "")
                 (map (fun t => ReactElement "span" "" t [])
                      (split (inputText s))))
              (cursorIndex s)
              (mapContentToComponent_glyphs (content s)) eq_refl)
    as (before & ce & after & n & Hdoc & _ & Hcur & _ & Hsum & Hall & Hnd).
  rewrite Hdoc. eexists. split; [reflexivity |]. cbn [children].
  assert (Hfilter : List.filter (fun e => negb (isCursor e))
                      (before ++ ce :: after) = before ++ after).
  { rewrite filter_app. cbn [List.filter]. rewrite Hcur. cbn [negb].
    apply Forall_app in Hall. destruct Hall as [Hb Ha].
    destruct (leaves_of_glyphs before Hb) as [_ ->].
    now destruct (leaves_of_glyphs after Ha) as [_ ->]. }
  assert (Hcount : len (List.filter (fun e => negb (isCursor e))
                          (before ++ ce :: after)) = len (content s)).
  { rewrite Hfilter, len_app. now rewrite glyphs_len in Hsum. }
  split; [exact Hcount |].
  intros j g Hj.
  rewrite (getChildIndex_position
             (mkHTMLElement g
                (Some (mkElement 1 "" (layout 1%N) (before ++ ce :: after))))
             (mkElement 1 "" (layout 1%N) (before ++ ce :: after))
             isCursor j eq_refl
             (NoDup_map_filter nodeId _ _ Hnd) Hj).
  split; [reflexivity |].
  assert (Hlt : (j < List.length
                       (List.filter (fun e => negb (isCursor e))
                          (before ++ ce :: after)))%nat)
    by (apply nth_error_Some; congruence).
  unfold len in Hcount. unfold len. lia.
Qed.

End RenderedContent.

(** X15. The cursor can step one past the content.  Take a state that
    shows its own rendering, has no pending input, and has the cursor
    index at the end of the content.  [moveCursorDelta 1] (the ArrowRight
    key) moves the cursor index to the length of the content plus one,
    because the empty span of the pending input counts as a terminal.
    There [removeCharacterAtCursor] (Backspace) removes nothing and only
    takes the cursor index back to the length of the content, and
    [cursorRectForIndex] on the new rendering returns a rectangle rather
    than raising. *)
Theorem arrow_right_past_the_end (layout : N -> IRect) (s : State) :
  contentElement s = Some (contentDocument layout s) ->
  inputText s = lit "" ->
  cursorIndex s = len (content s) ->
  cursorIndex (moveCursorDelta 1 s) = len (content s) + 1 /\
  content (removeCharacterAtCursor (moveCursorDelta 1 s)) = content s /\
  cursorIndex (removeCharacterAtCursor (moveCursorDelta 1 s))
  = len (content s) /\
  forall layout',
    exists rect,
      cursorRectForIndex (cursorIndex (moveCursorDelta 1 s))
        (contentDocument layout' (moveCursorDelta 1 s))
      = Return rect.
Proof.
  intros Hce Hinput Hindex.
  pose proof (len_nonneg (content s)) as Hlen.
  assert (Hmove : cursorIndex (moveCursorDelta 1 s) = len (content s) + 1).
  { rewrite (moveCursorDelta_cursorIndex s _ Hce).
    rewrite contentDocument_terminals_length, Hinput, Hindex.
    change (len (lit "")) with 0. lia. }
  destruct (moveCursorDelta_gate 1 s) as (Hinput' & _ & _).
  destruct (moveCursorDelta_content 1 s) as (Hcontent' & _).
  split; [exact Hmove |]. split; [| split].
  - rewrite removeCharacterAtCursor_content, Hmove, Hcontent'.
    rewrite removeCharacterAtIndex_nonneg by lia.
    rewrite firstn_all2, skipn_all2 by (unfold len in *; lia).
    apply app_nil_r.
  - rewrite removeCharacterAtCursor_cursorIndex, Hmove. lia.
  - intros layout'.
    apply (cursorRectForIndex_outcome
             (cursorIndex (moveCursorDelta 1 s))
             (contentDocument layout' (moveCursorDelta 1 s))).
    rewrite contentDocument_terminals_length, Hmove, Hcontent', Hinput', Hinput.
    change (len (lit "")) with 0. lia.
Qed.

Lemma arrow_right_past_the_end_witness :
  let s := mkState (lit "abc") (lit "") 3 RectZero
             (Some (contentDocument (fun _ => RectZero)
                      (mkState (lit "abc") (lit "") 3 RectZero None
                               (Some Sample.textarea) false)))
             (Some Sample.textarea) false in
  cursorIndex (moveCursorDelta 1 s) = 4 /\
  content (removeCharacterAtCursor (moveCursorDelta 1 s)) = lit "abc" /\
  cursorIndex (removeCharacterAtCursor (moveCursorDelta 1 s)) = 3.
Proof.
  destruct (arrow_right_past_the_end (fun _ => RectZero)
              (mkState (lit "abc") (lit "") 3 RectZero
                 (Some (contentDocument (fun _ => RectZero)
                          (mkState (lit "abc") (lit "") 3 RectZero None
                                   (Some Sample.textarea) false)))
                 (Some Sample.textarea) false)
              eq_refl eq_refl eq_refl)
    as (Hmove & Hcontent & Hindex & _).
  split; [exact Hmove | split; [exact Hcontent | exact Hindex]].
Defined.

(** ** The class with private fields *)

Section Fields.

Import FieldsEditor.

Implicit Types (this : State).

(** X16. [cursorRectForIndex] of the class with private fields.  Without
    a content element it returns the zero rectangle for every index.  When
    the content element has no content terminal (all its terminals are
    caret overlays) it returns the rectangle at the origin of height 20
    for every index, in range or not, and never raises.  Otherwise it
    raises exactly when the index is negative or exceeds the number of
    content terminals, with the invalid-cursor-index error. *)
Theorem fields_cursorRectForIndex_contract this (index : Z) :
  (contentElement this = None ->
   cursorRectForIndex this index = Return RectZero) /\
  (forall elems,
     getContentTerminalElements this = Some elems ->
     (elems = [] ->
      cursorRectForIndex this index
      = Return {| left := 0%Q; top := 0%Q; width := (-1)%Q;
                  height := 20%Q |}) /\
     (elems <> [] ->
      ((exists err, cursorRectForIndex this index = Throw err)
         <-> index < 0 \/ len elems < index) /\
      (forall err,
         cursorRectForIndex this index = Throw err ->
         err = InvalidCursorIndex index (len elems)))).
Proof.
  unfold cursorRectForIndex, getContentTerminalElements.
  destruct (contentElement this) as [c |].
  2: { split; [reflexivity | intros elems H; discriminate]. }
  split; [discriminate |].
  intros elems H. injection H as <-.
  set (elems := List.filter (fun e => negb (isCursor e))
                            (terminalElements c)).
  split; [intros ->; apply rectForIndex_empty |].
  intros Hne.
  destruct (Z.ltb_spec index 0) as [Hneg | Hpos];
    [| destruct (Z.ltb_spec (len elems) index) as [Hbig | Hsmall]].
  1, 2: rewrite (rectForIndex_outside _ index Hne) by lia;
    repeat split; settle_outcome.
  destruct (Z.eq_dec index (len elems)) as [-> | Hlt].
  - destruct (get_last_exists _ Hne) as [last Hlast].
    rewrite (rectForIndex_at_end _ last Hne Hlast).
    repeat split; settle_outcome.
  - assert (Hin : exists elem, get elems index = Some elem)
      by (apply get_Some_iff; lia).
    destruct Hin as [elem Helem].
    rewrite (rectForIndex_inside _ index elem Helem).
    repeat split; settle_outcome.
Qed.

Lemma fields_cursorRectForIndex_contract_witness :
  cursorRectForIndex
    (mkState (lit "") (lit "") 3 RectZero
             (Some (mkElement 1 "" RectZero [Sample.caret 2 0%Q]))
             (Some Sample.textarea) false) 3
  = Return {| left := 0%Q; top := 0%Q; width := (-1)%Q; height := 20%Q |}.
Proof.
  refine (proj1 (proj2 (fields_cursorRectForIndex_contract
            (mkState (lit "") (lit "") 3 RectZero
               (Some (mkElement 1 "" RectZero [Sample.caret 2 0%Q]))
               (Some Sample.textarea) false) 3) [] eq_refl) eq_refl).
Defined.

(** The content terminals of the rendering of this variant are the
    mounted glyphs of the content. *)
Lemma fields_rendered_terminals (layout : N -> IRect) this :
  len (List.filter (fun e => negb (isCursor e))
         (terminalElements (fst (mount layout (renderContent this) 0%N))))
  = len (content this).
Proof.
  unfold renderContent.
  destruct (insertedDocument_structure layout
              (map mapContentToComponent (split (content this)))
              (ReactElement "span" "none" (inputText this) [])
              (cursorIndex this)
              (mapContentToComponent_glyphs (content this)) eq_refl)
    as (before & ce & after & n & Hdoc & Hce & Hcur & _ & Hsum & Hall & _).
  rewrite Hdoc, terminalElements_equation. cbn [children flat_map].
  rewrite app_nil_r, terminalElements_around.
  apply Forall_app in Hall. destruct Hall as [Hb Ha].
  destruct (leaves_of_glyphs before Hb) as [-> Hfb].
  destruct (leaves_of_glyphs after Ha) as [-> Hfa].
  assert (Hleaf : terminalElements ce = [ce]).
  { rewrite terminalElements_equation, Hce, mount_equation. reflexivity. }
  rewrite Hleaf, !filter_app, Hfb, Hfa. cbn [List.filter].
  rewrite Hcur. cbn [negb app]. rewrite len_app.
  unfold len in *. rewrite !length_map in Hsum. unfold split in Hsum.
  rewrite length_map in Hsum. lia.
Qed.

(** X17. In the class with private fields [render] reads the previous
    rendering.  [render] computes the cursor rectangle before it returns
    the new tree, so the content element it measures still shows the
    state that was rendered before, [shown]; its content terminals are
    the glyphs of the content of [shown], the span of the pending input
    being filtered out.  The ArrowRight key therefore moves the cursor
    index to at most the length of that content, and [render] obtains its
    rectangle for a cursor index from 0 to that length, obtains the
    rectangle at the origin when that content is empty, and otherwise
    raises the invalid-cursor-index error.  In particular, once text has
    been typed at the end of a non-empty content, the cursor index of the
    new state exceeds the terminals still shown and [render] raises. *)
Theorem fields_render_reads_previous_rendering (layout : N -> IRect)
    shown this :
  contentElement this = Some (fst (mount layout (renderContent shown) 0%N)) ->
  cursorIndex (onKeyDown "ArrowRight" this)
  = Z.min (len (content shown)) (cursorIndex this + 1) /\
  (0 <= cursorIndex this <= len (content shown) ->
   exists rect, renderCursorRect this = Return rect) /\
  (content shown = lit "" ->
   renderCursorRect this
   = Return {| left := 0%Q; top := 0%Q; width := (-1)%Q;
               height := 20%Q |}) /\
  (content shown <> lit "" ->
   cursorIndex this < 0 \/ len (content shown) < cursorIndex this ->
   renderCursorRect this
   = Throw (InvalidCursorIndex (cursorIndex this) (len (content shown)))) /\
  (forall ta,
     this = fixTextarea shown ->
     textareaElement shown = Some ta ->
     value ta <> lit "" ->
     content shown <> lit "" ->
     cursorIndex shown = len (content shown) ->
     renderCursorRect this
     = Throw (InvalidCursorIndex (len (content shown) + len (value ta))
                                 (len (content shown)))).
Proof.
  intros Hce.
  pose proof (fields_rendered_terminals layout shown) as Hcount.
  assert (Hout : content shown <> lit "" ->
            cursorIndex this < 0 \/ len (content shown) < cursorIndex this ->
            renderCursorRect this
            = Throw (InvalidCursorIndex (cursorIndex this)
                                        (len (content shown)))).
  { unfold renderCursorRect, cursorRectForIndex, getContentTerminalElements.
    rewrite Hce. intros Hnil Hrange.
    rewrite rectForIndex_outside; [now rewrite Hcount | | lia].
    intros Helems. rewrite Helems in Hcount. apply Hnil.
    destruct (content shown); [reflexivity | discriminate]. }
  split; [| split; [| split; [| split; [exact Hout |]]]].
  - unfold onKeyDown, getContentTerminalElements.
    cbn [String.eqb Ascii.eqb Bool.eqb andb]. rewrite Hce.
    cbn [cursorIndex withCursorIndex]. now rewrite Hcount.
  - unfold renderCursorRect, cursorRectForIndex, getContentTerminalElements.
    rewrite Hce.
    set (elems := List.filter (fun e => negb (isCursor e))
                    (terminalElements
                       (fst (mount layout (renderContent shown) 0%N)))) in *.
    rewrite <- Hcount. intros Hrange.
    destruct elems as [| e0 rest] eqn:Helems;
      [rewrite rectForIndex_empty; eauto |].
    rewrite <- Helems in *.
    assert (Hne : elems <> []) by (rewrite Helems; discriminate).
    destruct (Z.eq_dec (cursorIndex this) (len elems)) as [Heq | Hlt].
    + destruct (get_last_exists _ Hne) as [last Hlast].
      rewrite Heq, (rectForIndex_at_end _ last Hne Hlast). eauto.
    + assert (Hin : exists elem, get elems (cursorIndex this) = Some elem)
        by (apply get_Some_iff; lia).
      destruct Hin as [elem Helem].
      rewrite (rectForIndex_inside _ _ elem Helem). eauto.
  - unfold renderCursorRect, cursorRectForIndex, getContentTerminalElements.
    rewrite Hce. intros Hnil. rewrite Hnil in Hcount.
    destruct (List.filter _ _); [apply rectForIndex_empty | discriminate].
  - intros ta Hthis Hta Htext Hnil Hend.
    assert (Hindex : cursorIndex this
                     = len (content shown) + len (value ta)).
    { rewrite Hthis. unfold fixTextarea. rewrite Hta. cbn. now rewrite Hend. }
    rewrite <- Hindex. apply Hout; [exact Hnil |].
    right. rewrite Hindex.
    destruct (value ta) as [| u rest]; [contradiction |].
    unfold len. cbn [List.length]. lia.
Qed.

Lemma fields_render_reads_previous_rendering_witness :
  let typed_d := mkState (lit "abc") (lit "") 3 RectZero None
                         (Some (mkTextArea (lit "d"))) false in
  let shown :=
    withContentElement
      (Some (fst (mount (fun _ => RectZero) (renderContent typed_d) 0%N)))
      typed_d in
  content (fixTextarea shown) = lit "abcd" /\
  cursorIndex (onKeyDown "ArrowRight" shown) = 3 /\
  (exists rect, renderCursorRect shown = Return rect) /\
  renderCursorRect (fixTextarea shown) = Throw (InvalidCursorIndex 4 3).
Proof.
  cbv zeta.
  set (typed_d := mkState (lit "abc") (lit "") 3 RectZero None
                          (Some (mkTextArea (lit "d"))) false).
  set (shown := withContentElement
                  (Some (fst (mount (fun _ => RectZero)
                                (renderContent typed_d) 0%N)))
                  typed_d).
  split; [reflexivity |].
  destruct (fields_render_reads_previous_rendering (fun _ => RectZero)
              shown shown eq_refl) as (Hright & Hrect & _).
  split; [exact Hright |]. split; [apply Hrect; cbn; lia |].
  destruct (fields_render_reads_previous_rendering (fun _ => RectZero)
              shown (fixTextarea shown) eq_refl) as (_ & _ & _ & _ & Htyped).
  refine (Htyped (mkTextArea (lit "d")) eq_refl eq_refl _ _ eq_refl);
    discriminate.
Defined.

(** X20. The composition round trip in the class with private fields.
    There [render] passes [onChange] an arrow function that calls
    [this.onChangeTextarea(e)], so the handler runs on the instance.  With
    the textarea attached, the handlers run on composition-start, input
    change to [t1], input change to [t2] and composition-end, the
    textarea holding what has been typed and showing the pending input
    after each change of state, store [t1] and then [t2] as pending
    input without touching the content, and at the end splice [t2] into
    the content at the cursor index, empty the pending input, advance the
    cursor index by the length of [t2] and leave the instance idle. *)
Theorem fields_composition_roundtrip this (ta : HTMLTextAreaElement)
    (t1 t2 : jsstring) :
  textareaElement this = Some ta ->
  let s1 := onCompositionStart this in
  let s2 := Editor.render (onChangeTextarea t1 (Editor.typed t1 s1)) in
  let s3 := Editor.render (onChangeTextarea t2 (Editor.typed t2 s2)) in
  let s4 := onCompositionEnd s3 in
  inputText s2 = t1 /\ content s2 = content this /\
  inputText s3 = t2 /\ content s3 = content this /\
  cursorIndex s3 = cursorIndex this /\
  content s4
  = slice (content this) 0 (cursorIndex this) ++ t2
      ++ sliceFrom (content this) (cursorIndex this) /\
  (0 <= cursorIndex this <= len (content this) ->
   content s4
   = firstn (Z.to_nat (cursorIndex this)) (content this) ++ t2
       ++ skipn (Z.to_nat (cursorIndex this)) (content this)) /\
  inputText s4 = lit "" /\
  cursorIndex s4 = cursorIndex this + len t2 /\
  composition s4 = false.
Proof.
  intros Hta. destruct this as [c i k r ce t b]. cbn in Hta. subst t.
  cbv zeta. do 5 (split; [reflexivity |]).
  split; [rewrite <- join_inserted_split; reflexivity |].
  split; [| repeat split].
  intros [Hlo Hhi]. cbn [cursorIndex content] in Hlo, Hhi |- *.
  rewrite <- (slice_prefix c k), <- (sliceFrom_suffix c k) by assumption.
  rewrite <- join_inserted_split. reflexivity.
Qed.

Lemma fields_composition_roundtrip_witness :
  let this := Sample.mounted (lit "Hello") 2 in
  let s4 :=
    onCompositionEnd
      (Editor.render
         (onChangeTextarea (lit "ab")
            (Editor.typed (lit "ab")
               (Editor.render
                  (onChangeTextarea (lit "a")
                     (Editor.typed (lit "a")
                        (onCompositionStart this))))))) in
  content s4 = lit "Heabllo" /\
  inputText s4 = lit "" /\
  cursorIndex s4 = 4 /\
  composition s4 = false.
Proof.
  cbv zeta.
  destruct (fields_composition_roundtrip (Sample.mounted (lit "Hello") 2)
              Sample.textarea (lit "a") (lit "ab") eq_refl)
    as (_ & _ & _ & _ & _ & _ & Hcontent & Hinput & Hindex & Hcomp).
  split; [apply Hcontent; cbn; lia |].
  split; [exact Hinput |]. split; [exact Hindex | exact Hcomp].
Defined.

End Fields.

(** ** The first draft of the class *)

Section Draft.

Import DraftEditor.

Implicit Types (this : State).

(** X18. [cursorRectForIndex] of the first draft.  With a content element
    attached and [N] content terminals: for an index from 1 to [N] it
    returns a rectangle at the right edge of the terminal before the
    index; for the index 0 and a non-empty content it returns one at the
    left edge of the first terminal; the width is always 10.  In every
    other case (a negative index, an index above [N], or the index 0 with
    no content terminal) the call ends in a [TypeError]: the error of the
    [throw] statement is never raised, because the test [elem === null]
    cannot hold for an array access. *)
Theorem draft_cursorRectForIndex_contract this (c : Element) (index : Z) :
  contentElement this = Some c ->
  let elems :=
    List.filter (fun e => negb (isCursor e)) (terminalElements c) in
  (1 <= index <= len elems ->
   exists elem,
     get elems (index - 1) = Some elem /\
     cursorRectForIndex this index
     = Return {| left := (left (getBoundingClientRect elem)
                          + width (getBoundingClientRect elem))%Q;
                 top := top (getBoundingClientRect elem);
                 width := 10%Q;
                 height := height (getBoundingClientRect elem) |}) /\
  (index = 0 -> elems <> [] ->
   exists elem,
     get elems 0 = Some elem /\
     cursorRectForIndex this index
     = Return {| left := left (getBoundingClientRect elem);
                 top := top (getBoundingClientRect elem);
                 width := 10%Q;
                 height := height (getBoundingClientRect elem) |}) /\
  (index < 0 \/ len elems < index \/ (index = 0 /\ elems = []) <->
   cursorRectForIndex this index = Throw TypeError) /\
  (forall i n, cursorRectForIndex this index
               <> Throw (InvalidCursorIndex i n)).
Proof.
  intros Hc elems. unfold cursorRectForIndex. rewrite Hc. fold elems.
  cbv zeta. pose proof (len_nonneg elems) as Hlen.
  destruct (Z.eqb_spec index 0) as [-> | Hnz].
  - destruct (get elems 0) as [elem |] eqn:Hget.
    + assert (0 <= 0 < len elems) by (apply get_Some_iff; eauto).
      repeat split; try discriminate; try lia.
      * intros _ _. eauto.
      * intros [H0 | [H0 | [_ H0]]]; try lia.
        rewrite H0 in Hget. discriminate.
    + assert (Hout : 0 < 0 \/ len elems <= 0) by (now apply get_None_iff).
      assert (Hnil : elems = []).
      { destruct elems; [reflexivity |].
        unfold len in Hout. cbn [List.length] in Hout. lia. }
      repeat split; try discriminate; try lia.
      * intros _ Hne. contradiction.
      * intros _. right. right. auto.
  - destruct (get elems (index - 1)) as [elem |] eqn:Hget.
    + assert (0 <= index - 1 < len elems) by (apply get_Some_iff; eauto).
      repeat split; try discriminate; try lia.
      intros _. eauto.
    + assert (Hout : index - 1 < 0 \/ len elems <= index - 1)
        by (now apply get_None_iff).
      repeat split; try discriminate; try lia.
Qed.

Lemma draft_cursorRectForIndex_contract_witness :
  cursorRectForIndex
    (mkState (lit "abc") (lit "") 1 RectZero (Some Sample.container)
             (Some Sample.textarea) false) 1
  = Return {| left := (100 + 20)%Q; top := 0%Q; width := 10%Q;
              height := 16%Q |}.
Proof.
  destruct (draft_cursorRectForIndex_contract
              (mkState (lit "abc") (lit "") 1 RectZero
                       (Some Sample.container) (Some Sample.textarea) false)
              Sample.container 1 eq_refl) as (Hin & _).
  destruct Hin as (elem & Hget & Hrect); [cbn; lia |].
  cbn in Hget. injection Hget as <-. exact Hrect.
Defined.

(** X19. Backspace at the start in the first draft.  The key handler
    stores [cursorIndex - 1] without a lower bound.  So Backspace with the
    cursor index at 0 leaves the content as it is but makes the cursor
    index -1, and for any cursor index of 0 or less the next [render]
    ends in a [TypeError] when the content element is attached. *)
Theorem draft_backspace_at_start this :
  cursorIndex this <= 0 ->
  cursorIndex (onKeyDown "Backspace" this) = cursorIndex this - 1 /\
  (cursorIndex this = 0 ->
   content (onKeyDown "Backspace" this) = content this) /\
  (contentElement this <> None ->
   renderCursorRect (onKeyDown "Backspace" this) = Throw TypeError).
Proof.
  intros Hle. unfold onKeyDown.
  cbn [String.eqb Ascii.eqb Bool.eqb andb].
  cbn [cursorIndex content withCursorIndex withContent].
  split; [reflexivity |]. split.
  - intros ->. apply removeCharacterAtIndex_minus_one.
  - intros Hce. unfold renderCursorRect, cursorRectForIndex.
    cbn [cursorIndex contentElement withCursorIndex withContent].
    destruct (contentElement this) as [c |]; [| contradiction].
    cbv zeta.
    destruct (Z.eqb_spec (cursorIndex this - 1) 0); [lia |].
    assert (Hget : get (List.filter (fun e => negb (isCursor e))
                          (terminalElements c))
                       (cursorIndex this - 1 - 1) = None)
      by (apply get_None_iff; lia).
    now rewrite Hget.
Qed.

Lemma draft_backspace_at_start_witness :
  let this := mkState (lit "abc") (lit "") 0 RectZero
                      (Some Sample.container) (Some Sample.textarea) false in
  cursorIndex (onKeyDown "Backspace" this) = -1 /\
  content (onKeyDown "Backspace" this) = lit "abc" /\
  renderCursorRect (onKeyDown "Backspace" this) = Throw TypeError.
Proof.
  cbv zeta.
  destruct (draft_backspace_at_start
              (mkState (lit "abc") (lit "") 0 RectZero
                       (Some Sample.container) (Some Sample.textarea)
                       false))
    as (Hindex & Hcontent & Hrender); [cbn; lia |].
  split; [exact Hindex |].
  split; [now apply Hcontent | apply Hrender; discriminate].
Defined.

End Draft.
